(** * preview.py: local preview server, port finder and browser launcher

    A shallow embedding of [preview.py].  The script talks to the operating
    system in four places: constructing a [socketserver.TCPServer] (which
    binds a port), [serve_forever], [os.system] and [webbrowser.open].  Each
    of them is an oracle of the environment [env]; the script threads a
    [world] through its calls, which counts the bind attempts made so far
    and records what the script did. *)

From Stdlib Require Import ZArith List Lia Bool.
From Stdlib Require Import Strings.String Strings.Ascii.
From Stdlib Require Import Numbers.DecimalString Numbers.DecimalPos Numbers.DecimalZ.
Import ListNotations.

Local Open Scope Z_scope.
Local Open Scope string_scope.

(** ** Exceptions and results *)

(** The exceptions the script can meet.  [OSError] carries [e.errno], which
    Python leaves [None] for some errors. *)
Inductive exn : Type :=
| OSError (errno : option Z)
| KeyboardInterrupt
| Exception (msg : string)
| OtherError (name : string).

(** What a call does: it returns, it raises, or it never comes back
    ([serve_forever] serving requests until the process is killed). *)
Inductive result (A : Type) : Type :=
| Returned (a : A)
| Raised (e : exn)
| Serving.

Arguments Returned {A} a.
Arguments Raised {A} e.
Arguments Serving {A}.

(** ** The environment *)

(** [TCPServer(("", port), handler)]: bound, or the constructor raises. *)
Inductive bind_outcome : Type :=
| Bound
| BindRaises (e : exn).

(** [httpd.serve_forever()]: blocks for good, raises, or (after a
    [shutdown()] request) returns. *)
Inductive serve_outcome : Type :=
| ServeBlocks
| ServeRaises (e : exn)
| ServeReturns.

(** [os.system(cmd)] and [webbrowser.open(url)]: a value, or an exception. *)
Inductive call_outcome (A : Type) : Type :=
| CallReturns (a : A)
| CallRaises (e : exn).

Arguments CallReturns {A} a.
Arguments CallRaises {A} e.

(** The oracles.  [bind_at n port] is the outcome of the script's [n]-th
    [TCPServer] construction (counting from 0) when it asks for [port]:
    the same port may be free at one attempt and taken at the next.
    [serve_at n] is the outcome of [serve_forever] on the server built by
    attempt [n]. *)
Record env : Type := mkEnv {
  bind_at : nat -> Z -> bind_outcome;
  serve_at : nat -> serve_outcome;
  os_system : string -> call_outcome Z;
  webbrowser_open : string -> call_outcome bool
}.

(** ** The world threaded through the script *)

Inductive event : Type :=
| EvBind (port : Z) (r : bind_outcome)   (* TCPServer(("", port), ...) *)
| EvClose (port : Z)                     (* leaving the [with] block *)
| EvServe (port : Z)                     (* httpd.serve_forever() entered *)
| EvPrint (line : string)                (* print(line) *)
| EvThreadStart (port : Z)               (* Thread(target=open_in_safari, args=(port,)).start() *)
| EvSleep (millis : Z)                   (* time.sleep *)
| EvOsSystem (cmd : string)              (* os.system(cmd) *)
| EvWebbrowserOpen (url : string).       (* webbrowser.open(url) *)

Record world : Type := mkWorld {
  clock : nat;          (* TCPServer constructions so far *)
  log : list event      (* what happened, oldest first *)
}.

Definition init_world : world := mkWorld 0 [].

Definition emit (ev : event) (w : world) : world :=
  mkWorld (clock w) (log w ++ [ev])%list.

Definition print (line : string) (w : world) : world :=
  emit (EvPrint line) w.

(** [TCPServer(("", port), SimpleHTTPRequestHandler)] in world [w]. *)
Definition tcp_server (E : env) (port : Z) (w : world) : bind_outcome * world :=
  let r := bind_at E (clock w) port in
  (r, mkWorld (S (clock w)) (log w ++ [EvBind port r])%list).

(** [f"{port}"] *)
Definition str (n : Z) : string := NilZero.string_of_int (Z.to_int n).

(** [e.errno == 48] *)
Definition errno_is_48 (errno : option Z) : bool :=
  match errno with
  | Some n => (n =? 48)%Z
  | None => false
  end.

(** ** start_server *)

(** The recursion of [start_server] has no bound of its own; [fuel] is the
    depth of calls allowed, [None] is a run that needs more. *)
Fixpoint start_server (E : env) (fuel : nat) (port : Z) (w : world)
  : option (result Z * world) :=
  match fuel with
  | O => None
  | S fuel' =>
    (* what the [except OSError as e] clause does with an exception of the
       [try] body *)
    let handler (e : exn) (w : world) :=
      match e with
      | OSError errno =>
        if errno_is_48 errno then
          let w := print ("Port " ++ str port ++ " is already in use, trying port "
                          ++ str (port + 1)) w in
          start_server E fuel' (port + 1) w
        else Some (Raised e, w)
      | _ => Some (Raised e, w)
      end in
    match tcp_server E port w with
    | (Bound, w1) =>
      let w2 := print ("Server running at http://localhost:" ++ str port ++ "/") w1 in
      let w3 := print "Press Ctrl+C to stop the server" w2 in
      let w4 := emit (EvServe port) w3 in
      match serve_at E (clock w) with
      | ServeBlocks => Some (Serving, w4)
      | ServeReturns => Some (Returned port, emit (EvClose port) w4)
      | ServeRaises e => handler e (emit (EvClose port) w4)
      end
    | (BindRaises e, w1) => handler e w1
    end
  end.

(** ** open_in_safari *)

Definition newline : string := String (ascii_of_nat 10) EmptyString.
Definition dquote : string := String (ascii_of_nat 34) EmptyString.

Definition localhost_url (port : Z) : string :=
  "http://localhost:" ++ str port ++ "/".

(** [f'open -a Safari "{url}"'] *)
Definition safari_command (url : string) : string :=
  "open -a Safari " ++ dquote ++ url ++ dquote.

Definition open_in_safari (E : env) (port : Z) (w : world) : result unit * world :=
  let w := emit (EvSleep 1500) w in
  let url := localhost_url port in
  let cmd := safari_command url in
  let w := emit (EvOsSystem cmd) w in
  match os_system E cmd with
  | CallReturns _ =>
    (Returned tt, print ("Opening " ++ url ++ " in Safari...") w)
  | CallRaises _ =>
    (* the bare [except:] catches whatever [os.system] raised *)
    let w := emit (EvWebbrowserOpen url) w in
    match webbrowser_open E url with
    | CallReturns _ =>
      (Returned tt, print ("Opening " ++ url ++ " in default browser...") w)
    | CallRaises e => (Raised e, w)
    end
  end.

(** ** find_available_port *)

(** The [while True] loop, [fuel] iterations of it at most.  [port] is the
    loop variable, [start_port] the argument. *)
Fixpoint find_loop (E : env) (fuel : nat) (start_port port : Z) (w : world)
  : option (result Z * world) :=
  match fuel with
  | O => None
  | S fuel' =>
    match tcp_server E port w with
    | (Bound, w1) => Some (Returned port, emit (EvClose port) w1)
    | (BindRaises (OSError errno), w1) =>
      if errno_is_48 errno then
        let port := port + 1 in
        if (port >? start_port + 100)%Z then
          Some (Raised (Exception "Could not find available port"), w1)
        else find_loop E fuel' start_port port w1
      else Some (Raised (OSError errno), w1)
    | (BindRaises e, w1) => Some (Raised e, w1)
    end
  end.

Definition find_available_port (E : env) (fuel : nat) (start_port : Z) (w : world)
  : option (result Z * world) :=
  find_loop E fuel start_port start_port w.

(** ** The main program *)

(** How the process ends, as far as the main thread decides it. *)
Inductive process_end : Type :=
| SysExit (status : Z)          (* sys.exit(status) *)
| Uncaught (e : exn)            (* traceback, failure status *)
| FellOffTheEnd                 (* the script ran to its last line *)
| ServesForever.                (* blocked in serve_forever *)

(** A run of the script: how the main thread ends, the main thread's world,
    and for the launcher thread, when it was started, what it does when it
    is left to run to its end (it is a daemon thread: the process does not
    wait for it). *)
Record run : Type := mkRun {
  ending : process_end;
  main_world : world;
  launcher : option (result unit * world)
}.

Definition main (E : env) (fuel : nat) : option run :=
  match find_available_port E fuel 8000 init_world with
  | None => None
  | Some (Returned port, w1) =>
    let safari_thread := open_in_safari E port init_world in
    let w2 := emit (EvThreadStart port) w1 in
    match start_server E fuel port w2 with
    | None => None
    | Some (Raised KeyboardInterrupt, w3) =>
      let w4 := print (newline ++ "Server stopped.") w3 in
      Some (mkRun (SysExit 0) w4 (Some safari_thread))
    | Some (Raised e, w3) => Some (mkRun (Uncaught e) w3 (Some safari_thread))
    | Some (Returned _, w3) => Some (mkRun FellOffTheEnd w3 (Some safari_thread))
    | Some (Serving, w3) => Some (mkRun ServesForever w3 (Some safari_thread))
    end
  | Some (Raised e, w1) => Some (mkRun (Uncaught e) w1 None)
  | Some (Serving, w1) => Some (mkRun ServesForever w1 None)
  end.

(** ** Observations on a log *)

(** The ports [serve_forever] was entered on. *)
Fixpoint served_ports (l : list event) : list Z :=
  match l with
  | [] => []
  | EvServe p :: l' => p :: served_ports l'
  | _ :: l' => served_ports l'
  end.

(** The ports a [TCPServer] construction asked for. *)
Fixpoint probed_ports (l : list event) : list Z :=
  match l with
  | [] => []
  | EvBind p _ :: l' => p :: probed_ports l'
  | _ :: l' => probed_ports l'
  end.

(** The ports the launcher thread was started with. *)
Fixpoint thread_starts (l : list event) : list Z :=
  match l with
  | [] => []
  | EvThreadStart p :: l' => p :: thread_starts l'
  | _ :: l' => thread_starts l'
  end.

(** The lines printed. *)
Fixpoint printed (l : list event) : list string :=
  match l with
  | [] => []
  | EvPrint s :: l' => s :: printed l'
  | _ :: l' => printed l'
  end.

(** The browser-open actions taken: the [os.system] command lines and the
    [webbrowser.open] URLs. *)
Fixpoint browser_opens (l : list event) : list string :=
  match l with
  | [] => []
  | EvOsSystem c :: l' => c :: browser_opens l'
  | EvWebbrowserOpen u :: l' => u :: browser_opens l'
  | _ :: l' => browser_opens l'
  end.

(** What the Port Finder leaves in a log: constructions and the closing of
    the server it found. *)
Definition probe_event (ev : event) : Prop :=
  match ev with
  | EvBind _ _ | EvClose _ => True
  | _ => False
  end.

(** What [start_server] leaves in a log. *)
Definition server_event (ev : event) : Prop :=
  match ev with
  | EvBind _ _ | EvClose _ | EvServe _ | EvPrint _ => True
  | _ => False
  end.

(** The world after [k] constructions in a row, on [port], [port + 1], ...,
    each of which raised. *)
Fixpoint failed_probes (E : env) (k : nat) (port : Z) (w : world) : world :=
  match k with
  | O => w
  | S k' => failed_probes E k' (port + 1) (snd (tcp_server E port w))
  end.

(** The line [start_server] prints before it retries. *)
Definition retry_line (port : Z) : string :=
  "Port " ++ str port ++ " is already in use, trying port " ++ str (port + 1).

(** The world after [k] calls of [start_server] in a row, on [port],
    [port + 1], ..., each of which found its port taken and retried. *)
Fixpoint failed_binds (E : env) (k : nat) (port : Z) (w : world) : world :=
  match k with
  | O => w
  | S k' =>
    failed_binds E k' (port + 1) (print (retry_line port) (snd (tcp_server E port w)))
  end.

(** The world once [start_server] has bound [port] and entered
    [serve_forever]. *)
Definition serving_world (E : env) (port : Z) (w : world) : world :=
  emit (EvServe port)
    (print "Press Ctrl+C to stop the server"
       (print ("Server running at http://localhost:" ++ str port ++ "/")
          (snd (tcp_server E port w)))).

(** The address-already-in-use error as the script recognises it. *)
Definition EADDRINUSE : exn := OSError (Some 48).

(** [except OSError as e: if e.errno == 48] takes the retry branch on [e]. *)
Definition retried (e : exn) : bool :=
  match e with
  | OSError errno => errno_is_48 errno
  | _ => false
  end.

(** ** Sample environments *)

Definition quiet_serve : nat -> serve_outcome := fun _ => ServeBlocks.
Definition safari_ok : string -> call_outcome Z := fun _ => CallReturns 0.
Definition browser_ok : string -> call_outcome bool := fun _ => CallReturns true.

(** Every port is free. *)
Definition E_free : env :=
  mkEnv (fun _ _ => Bound) quiet_serve safari_ok browser_ok.

(** Port 8000 is taken by another listener, every other port is free. *)
Definition E_8000_taken : env :=
  mkEnv (fun _ p => if p =? 8000 then BindRaises EADDRINUSE else Bound)%Z
        quiet_serve safari_ok browser_ok.

(** Every port is taken. *)
Definition E_all_taken : env :=
  mkEnv (fun _ _ => BindRaises EADDRINUSE) quiet_serve safari_ok browser_ok.

(** Port 8000 is free when probed (construction 0) and taken by another
    process by the time the server binds it (construction 1). *)
Definition E_race : env :=
  mkEnv (fun n _ => if Nat.eqb n 1 then BindRaises EADDRINUSE else Bound)
        quiet_serve safari_ok browser_ok.

(** Every port is taken, on a platform whose address-in-use code is 98. *)
Definition E_errno_98 : env :=
  mkEnv (fun _ _ => BindRaises (OSError (Some 98))) quiet_serve safari_ok browser_ok.

(** Binding is refused for lack of permission (errno 13), after [k] ports
    that were taken. *)
Definition E_denied_after (k : nat) : env :=
  mkEnv (fun n _ => if Nat.ltb n k then BindRaises EADDRINUSE
                    else BindRaises (OSError (Some 13)))
        quiet_serve safari_ok browser_ok.

(** Every port is free and the user presses Ctrl+C while the server runs. *)
Definition E_interrupt : env :=
  mkEnv (fun _ _ => Bound) (fun _ => ServeRaises KeyboardInterrupt)
        safari_ok browser_ok.

(** A host without the [open] command or without Safari: the shell that
    [os.system] starts cannot run the command and [os.system] returns the
    wait status of exit code 127 (127 * 256 = 32512); it does not raise.
    The default browser works. *)
Definition E_no_open : env :=
  mkEnv (fun _ _ => Bound) quiet_serve
        (fun _ => CallReturns 32512) browser_ok.

(** [os.system] cannot be called; the default browser works. *)
Definition E_no_safari : env :=
  mkEnv (fun _ _ => Bound) quiet_serve
        (fun _ => CallRaises (OtherError "ValueError")) browser_ok.

(** ** Further observations *)

(** [k] consecutive ports from [p] on: [p], [p + 1], ..., [p + k - 1]. *)
Fixpoint ports_from (p : Z) (k : nat) : list Z :=
  match k with
  | O => []
  | S k' => p :: ports_from (p + 1) k'
  end.

(** The listening socket the script holds while a log unfolds: [st] is the
    port of the server that is open, if one is.  The result is [None] when
    the log breaks the discipline of one socket at a time: a construction
    while a server is open, or serving or closing a server that is not the
    open one. *)
Fixpoint socket_state (st : option Z) (l : list event) : option (option Z) :=
  match l with
  | [] => Some st
  | EvBind p r :: l' =>
    match st, r with
    | None, Bound => socket_state (Some p) l'
    | None, BindRaises _ => socket_state None l'
    | Some _, _ => None
    end
  | EvClose p :: l' =>
    match st with
    | Some q => if (p =? q)%Z then socket_state None l' else None
    | None => None
    end
  | EvServe p :: l' =>
    match st with
    | Some q => if (p =? q)%Z then socket_state st l' else None
    | None => None
    end
  | _ :: l' => socket_state st l'
  end.

(** The first line [start_server] prints once it is bound. *)
Definition running_line (port : Z) : string :=
  "Server running at http://localhost:" ++ str port ++ "/".

(** The printed lines that announce a running server. *)
Definition announcements (l : list event) : list string :=
  filter (String.prefix "Server running at ") (printed l).

(** An environment without races: whether a port can be bound does not
    change while the script runs. *)
Definition stable (E : env) : Prop :=
  forall n m p, bind_at E n p = bind_at E m p.

(** * Properties *)

Lemma errno_is_48_spec errno : errno_is_48 errno = true <-> errno = Some 48.
Proof.
  destruct errno as [n|]; simpl.
  - rewrite Z.eqb_eq. split; congruence.
  - split; discriminate.
Qed.

Lemma errno_not_48 errno : errno <> Some 48 -> errno_is_48 errno = false.
Proof.
  intros H. destruct (errno_is_48 errno) eqn:Heq; [|reflexivity].
  apply errno_is_48_spec in Heq. contradiction.
Qed.

Lemma retried_spec e : retried e = true <-> e = EADDRINUSE.
Proof.
  unfold EADDRINUSE. destruct e; simpl; try (split; discriminate).
  rewrite errno_is_48_spec. split; congruence.
Qed.

Lemma clock_failed_probes E k : forall port w,
  clock (failed_probes E k port w) = (clock w + k)%nat.
Proof.
  induction k as [|k IH]; intros port w; simpl.
  - lia.
  - rewrite IH. simpl. lia.
Qed.

Lemma clock_failed_binds E k : forall port w,
  clock (failed_binds E k port w) = (clock w + k)%nat.
Proof.
  induction k as [|k IH]; intros port w; simpl.
  - lia.
  - rewrite IH. simpl. lia.
Qed.

Lemma failed_probes_last E k : forall port w,
  failed_probes E (S k) port w
  = snd (tcp_server E (port + Z.of_nat k) (failed_probes E k port w)).
Proof.
  induction k as [|k IH]; intros port w.
  - simpl. rewrite Z.add_0_r. reflexivity.
  - change (failed_probes E (S (S k)) port w)
      with (failed_probes E (S k) (port + 1) (snd (tcp_server E port w))).
    rewrite IH. simpl failed_probes. do 2 f_equal. lia.
Qed.

Lemma thread_starts_app l1 l2 :
  thread_starts (l1 ++ l2) = (thread_starts l1 ++ thread_starts l2)%list.
Proof.
  induction l1 as [|ev l1 IH]; simpl; [reflexivity|].
  destruct ev; simpl; rewrite IH; reflexivity.
Qed.

Lemma served_ports_app l1 l2 :
  served_ports (l1 ++ l2) = (served_ports l1 ++ served_ports l2)%list.
Proof.
  induction l1 as [|ev l1 IH]; simpl; [reflexivity|].
  destruct ev; simpl; rewrite IH; reflexivity.
Qed.

Lemma probe_events_quiet l :
  Forall probe_event l -> thread_starts l = [] /\ served_ports l = [].
Proof.
  induction 1 as [|ev l Hev _ [IH1 IH2]]; [split; reflexivity|].
  destruct ev; simpl in *; try contradiction; auto.
Qed.

Lemma server_events_no_thread l :
  Forall server_event l -> thread_starts l = [].
Proof.
  induction 1 as [|ev l Hev _ IH]; [reflexivity|].
  destruct ev; simpl in *; try contradiction; auto.
Qed.

Section PortFinder.

Variable E : env.

(** One turn of the loop on a free port. *)
Lemma find_loop_bound fuel start port w :
  bind_at E (clock w) port = Bound ->
  find_loop E (S fuel) start port w
  = Some (Returned port, emit (EvClose port) (snd (tcp_server E port w))).
Proof.
  intros Hb. cbn [find_loop]. unfold tcp_server. rewrite Hb. reflexivity.
Qed.

(** One turn of the loop on a taken port. *)
Lemma find_loop_taken fuel start port w :
  bind_at E (clock w) port = BindRaises EADDRINUSE ->
  find_loop E (S fuel) start port w
  = if (port + 1 >? start + 100)%Z
    then Some (Raised (Exception "Could not find available port"),
               snd (tcp_server E port w))
    else find_loop E fuel start (port + 1) (snd (tcp_server E port w)).
Proof.
  intros Hb. cbn [find_loop]. unfold tcp_server. rewrite Hb. reflexivity.
Qed.

(** One turn of the loop on an exception the handler does not retry. *)
Lemma find_loop_fatal fuel start port w e :
  bind_at E (clock w) port = BindRaises e ->
  retried e = false ->
  find_loop E (S fuel) start port w = Some (Raised e, snd (tcp_server E port w)).
Proof.
  intros Hb He. cbn [find_loop]. unfold tcp_server. rewrite Hb.
  destruct e; simpl in *; try reflexivity.
  rewrite He. reflexivity.
Qed.

(** [k] taken ports in a row inside the window cost [k] turns. *)
Lemma find_loop_skip k : forall fuel start port w,
  (forall i, (i < k)%nat ->
     bind_at E (clock w + i) (port + Z.of_nat i) = BindRaises EADDRINUSE) ->
  port + Z.of_nat k <= start + 100 ->
  find_loop E (k + fuel) start port w
  = find_loop E fuel start (port + Z.of_nat k) (failed_probes E k port w).
Proof.
  induction k as [|k IH]; intros fuel start port w Hbusy Hwin.
  - simpl. rewrite Z.add_0_r. reflexivity.
  - change (S k + fuel)%nat with (S (k + fuel)).
    rewrite find_loop_taken.
    2:{ specialize (Hbusy O). rewrite Nat.add_0_r, Z.add_0_r in Hbusy.
        apply Hbusy. lia. }
    destruct (port + 1 >? start + 100)%Z eqn:Hgt.
    + apply Z.gtb_lt in Hgt. lia.
    + rewrite IH.
      * simpl failed_probes. f_equal. lia.
      * intros i Hi. specialize (Hbusy (S i)).
        simpl clock. replace (S (clock w) + i)%nat with (clock w + S i)%nat by lia.
        replace (port + 1 + Z.of_nat i) with (port + Z.of_nat (S i)) by lia.
        apply Hbusy. lia.
      * lia.
Qed.

(** The loop needs no more turns than there are ports left in the window. *)
Lemma find_loop_total n : forall start port w,
  start + 100 - port <= Z.of_nat n ->
  exists r, forall fuel, (S n <= fuel)%nat ->
    find_loop E fuel start port w = Some r.
Proof.
  induction n as [|n IH]; intros start port w Hn.
  - destruct (bind_at E (clock w) port) as [|e] eqn:Hb.
    + eexists. intros [|fuel] Hf; [lia|]. apply find_loop_bound, Hb.
    + destruct (retried e) eqn:He.
      * apply retried_spec in He. subst e.
        eexists. intros [|fuel] Hf; [lia|].
        rewrite (find_loop_taken _ _ _ _ Hb).
        replace (port + 1 >? start + 100)%Z with true
          by (symmetry; apply Z.gtb_lt; lia).
        reflexivity.
      * eexists. intros [|fuel] Hf; [lia|]. eapply find_loop_fatal; eassumption.
  - destruct (bind_at E (clock w) port) as [|e] eqn:Hb.
    + eexists. intros [|fuel] Hf; [lia|]. apply find_loop_bound, Hb.
    + destruct (retried e) eqn:He.
      * apply retried_spec in He. subst e.
        destruct (port + 1 >? start + 100)%Z eqn:Hgt.
        -- eexists. intros [|fuel] Hf; [lia|].
           rewrite (find_loop_taken _ _ _ _ Hb), Hgt. reflexivity.
        -- destruct (IH start (port + 1) (snd (tcp_server E port w))) as [r Hr];
             [lia|].
           exists r. intros [|fuel] Hf; [lia|].
           rewrite (find_loop_taken _ _ _ _ Hb), Hgt. apply Hr. lia.
      * eexists. intros [|fuel] Hf; [lia|]. eapply find_loop_fatal; eassumption.
Qed.

(** Whatever the loop does from a candidate inside the window, it probes
    and returns only ports between that candidate and the window's end. *)
Lemma find_loop_range fuel : forall start port w r w',
  start <= port <= start + 100 ->
  find_loop E fuel start port w = Some (r, w') ->
  (forall v, r = Returned v -> port <= v <= start + 100)
  /\ exists added,
       log w' = (log w ++ added)%list
       /\ Forall (fun p => port <= p <= start + 100) (probed_ports added).
Proof.
  induction fuel as [|fuel IH]; intros start port w r w' Hwin Hrun;
    [discriminate|].
  cbn [find_loop] in Hrun. unfold tcp_server in Hrun.
  assert (Hone : Forall (fun p => port <= p <= start + 100) [port])
    by (constructor; [lia|constructor]).
  destruct (bind_at E (clock w) port) as [|e] eqn:Hb.
  - inversion Hrun; subst. split.
    + intros v Hv. inversion Hv; subst. lia.
    + exists [EvBind port Bound; EvClose port]. split.
      * simpl. rewrite <- app_assoc. reflexivity.
      * exact Hone.
  - assert (Hstop : forall x, Some (Raised x, mkWorld (S (clock w))
              (log w ++ [EvBind port (BindRaises e)])%list) = Some (r, w') ->
            (forall v, r = Returned v -> port <= v <= start + 100)
            /\ exists added, log w' = (log w ++ added)%list
                 /\ Forall (fun p => port <= p <= start + 100) (probed_ports added)).
    { intros x Hx. inversion Hx; subst. split; [discriminate|].
      exists [EvBind port (BindRaises e)]. split; [reflexivity|exact Hone]. }
    destruct e as [errno| | |]; try (eapply Hstop; eassumption).
    destruct (errno_is_48 errno); [|eapply Hstop; eassumption].
    destruct (port + 1 >? start + 100)%Z eqn:Hgt; [eapply Hstop; eassumption|].
    assert (Hle : port + 1 <= start + 100).
    { destruct (Z.gtb_spec (port + 1) (start + 100)); [discriminate|assumption]. }
    apply IH in Hrun; [|lia].
    destruct Hrun as [Hret [added [Hlog Hall]]]. split.
    + intros v Hv. specialize (Hret v Hv). lia.
    + exists (EvBind port (BindRaises (OSError errno)) :: added). split.
      * rewrite Hlog. simpl. rewrite <- app_assoc. reflexivity.
      * simpl. constructor; [lia|].
        eapply Forall_impl; [|exact Hall]. simpl. intros; lia.
Qed.

End PortFinder.

Section Server.

Variable E : env.

(** The port is free and [serve_forever] blocks. *)
Lemma start_server_serving fuel port w :
  bind_at E (clock w) port = Bound ->
  serve_at E (clock w) = ServeBlocks ->
  start_server E (S fuel) port w = Some (Serving, serving_world E port w).
Proof.
  intros Hb Hs. cbn [start_server]. unfold serving_world, tcp_server.
  rewrite Hb, Hs.
  reflexivity.
Qed.

(** The port is taken: the call prints and calls itself on the next port. *)
Lemma start_server_retry fuel port w :
  bind_at E (clock w) port = BindRaises EADDRINUSE ->
  start_server E (S fuel) port w
  = start_server E fuel (port + 1)
      (print (retry_line port) (snd (tcp_server E port w))).
Proof.
  intros Hb. cbn [start_server]. unfold tcp_server. rewrite Hb. reflexivity.
Qed.

(** The constructor raises something the handler does not retry. *)
Lemma start_server_fatal fuel port w e :
  bind_at E (clock w) port = BindRaises e ->
  retried e = false ->
  start_server E (S fuel) port w = Some (Raised e, snd (tcp_server E port w)).
Proof.
  intros Hb He. cbn [start_server]. unfold tcp_server. rewrite Hb.
  destruct e; simpl in *; try reflexivity.
  rewrite He. reflexivity.
Qed.

(** [serve_forever] raises something the handler does not retry. *)
Lemma start_server_serve_raises fuel port w e :
  bind_at E (clock w) port = Bound ->
  serve_at E (clock w) = ServeRaises e ->
  retried e = false ->
  start_server E (S fuel) port w
  = Some (Raised e, emit (EvClose port) (serving_world E port w)).
Proof.
  intros Hb Hs He. cbn [start_server]. unfold serving_world, tcp_server.
  rewrite Hb, Hs.
  destruct e; simpl in *; try reflexivity.
  rewrite He. reflexivity.
Qed.

(** [k] taken ports in a row cost [k] nested calls, however large [k]. *)
Lemma start_server_skip k : forall fuel port w,
  (forall i, (i < k)%nat ->
     bind_at E (clock w + i) (port + Z.of_nat i) = BindRaises EADDRINUSE) ->
  start_server E (k + fuel) port w
  = start_server E fuel (port + Z.of_nat k) (failed_binds E k port w).
Proof.
  induction k as [|k IH]; intros fuel port w Hbusy.
  - simpl. rewrite Z.add_0_r. reflexivity.
  - change (S k + fuel)%nat with (S (k + fuel)).
    rewrite start_server_retry.
    2:{ specialize (Hbusy O). rewrite Nat.add_0_r, Z.add_0_r in Hbusy.
        apply Hbusy. lia. }
    rewrite IH.
    + simpl failed_binds. f_equal. lia.
    + intros i Hi. specialize (Hbusy (S i)).
      simpl clock. replace (S (clock w) + i)%nat with (clock w + S i)%nat by lia.
      replace (port + 1 + Z.of_nat i) with (port + Z.of_nat (S i)) by lia.
      apply Hbusy. lia.
Qed.

(** Whatever [start_server] does, the first thing it does is to construct
    a server on the port it was given. *)
Lemma start_server_first_bind fuel : forall port w r w',
  start_server E fuel port w = Some (r, w') ->
  exists rest,
    log w' = (log w ++ EvBind port (bind_at E (clock w) port) :: rest)%list.
Proof.
  induction fuel as [|fuel IH]; intros port w r w' Hrun; [discriminate|].
  cbn [start_server] in Hrun. unfold tcp_server in Hrun.
  set (b := bind_at E (clock w) port) in *.
  assert (Hhandler : forall e w1 tail,
    log w1 = (log w ++ EvBind port b :: tail)%list ->
    match e with
    | OSError errno =>
        if errno_is_48 errno
        then start_server E fuel (port + 1) (print (retry_line port) w1)
        else Some (Raised e, w1)
    | _ => Some (Raised e, w1)
    end = Some (r, w') ->
    exists rest, log w' = (log w ++ EvBind port b :: rest)%list).
  { intros e w1 tail Hw1 Hh.
    assert (Hstop : Some (Raised e, w1) = Some (r, w') ->
              exists rest, log w' = (log w ++ EvBind port b :: rest)%list).
    { intros Hx. inversion Hx; subst. exists tail. exact Hw1. }
    destruct e as [errno| | |]; try (apply Hstop; assumption).
    destruct (errno_is_48 errno); [|apply Hstop; assumption].
    apply IH in Hh. destruct Hh as [rest Hrest].
    eexists. rewrite Hrest. simpl. rewrite Hw1.
    rewrite <- !app_assoc. simpl. reflexivity. }
  destruct b as [|e] eqn:Hb.
  - destruct (serve_at E (clock w)) as [|e|].
    + inversion Hrun; subst. eexists. simpl.
      rewrite <- !app_assoc. simpl. reflexivity.
    + eapply (Hhandler e); [|exact Hrun]. simpl.
      rewrite <- !app_assoc. simpl. reflexivity.
    + inversion Hrun; subst. eexists. simpl.
      rewrite <- !app_assoc. simpl. reflexivity.
  - eapply (Hhandler e _ []); [|exact Hrun]. reflexivity.
Qed.

End Server.

(** [start_server] and [find_available_port] consult the bind and serve
    oracles only: two environments that differ in the browser oracles give
    the same runs of them. *)
Lemma start_server_ext E1 E2 fuel : forall port w,
  (forall n p, bind_at E1 n p = bind_at E2 n p) ->
  (forall n, serve_at E1 n = serve_at E2 n) ->
  start_server E1 fuel port w = start_server E2 fuel port w.
Proof.
  induction fuel as [|fuel IH]; intros port w Hb Hs; [reflexivity|].
  cbn [start_server]. unfold tcp_server. rewrite Hb, Hs.
  destruct (bind_at E2 (clock w) port) as [|e].
  - destruct (serve_at E2 (clock w)) as [|e|]; try reflexivity.
    destruct e as [errno| | |]; try reflexivity.
    destruct (errno_is_48 errno); [|reflexivity]. apply IH; assumption.
  - destruct e as [errno| | |]; try reflexivity.
    destruct (errno_is_48 errno); [|reflexivity]. apply IH; assumption.
Qed.

Lemma find_loop_ext E1 E2 fuel : forall start port w,
  (forall n p, bind_at E1 n p = bind_at E2 n p) ->
  find_loop E1 fuel start port w = find_loop E2 fuel start port w.
Proof.
  induction fuel as [|fuel IH]; intros start port w Hb; [reflexivity|].
  cbn [find_loop]. unfold tcp_server. rewrite Hb.
  destruct (bind_at E2 (clock w) port) as [|e]; [reflexivity|].
  destruct e as [errno| | |]; try reflexivity.
  destruct (errno_is_48 errno); [|reflexivity].
  destruct (port + 1 >? start + 100)%Z; [reflexivity|]. apply IH; assumption.
Qed.

(** * The claims *)

(** ** Port Finder *)

(** C1.  First fit over consecutive candidates: from any starting port [P],
    when the construction of a server on [P] succeeds,
    [find_available_port(P)] returns [P] after that one probe; when it
    fails with address-already-in-use and the next construction, on
    [P + 1], succeeds, it returns [P + 1] after those two probes. *)
Theorem find_available_port_first_fit (E : env) (fuel : nat) (P : Z) (w : world) :
  (bind_at E (clock w) P = Bound ->
   find_available_port E (S fuel) P w
   = Some (Returned P,
           mkWorld (S (clock w)) (log w ++ [EvBind P Bound; EvClose P])))
  /\
  (bind_at E (clock w) P = BindRaises EADDRINUSE ->
   bind_at E (S (clock w)) (P + 1) = Bound ->
   find_available_port E (S (S fuel)) P w
   = Some (Returned (P + 1),
           mkWorld (S (S (clock w)))
                   (log w ++ [EvBind P (BindRaises EADDRINUSE);
                              EvBind (P + 1) Bound; EvClose (P + 1)]))).
Proof.
  unfold find_available_port. split.
  - intros Hfree. rewrite find_loop_bound by assumption.
    unfold tcp_server, emit. simpl. rewrite Hfree, <- app_assoc. reflexivity.
  - intros Htaken Hnext. rewrite find_loop_taken by assumption.
    replace (P + 1 >? P + 100)%Z with false
      by (symmetry; rewrite Z.gtb_ltb; apply Z.ltb_ge; lia).
    rewrite find_loop_bound by (simpl; assumption).
    unfold tcp_server, emit. simpl. rewrite Htaken, Hnext, <- !app_assoc.
    reflexivity.
Qed.

Lemma find_available_port_first_fit_witness :
  (bind_at E_free 0 8000 = Bound
   /\ find_available_port E_free 1 8000 init_world
      = Some (Returned 8000, mkWorld 1 [EvBind 8000 Bound; EvClose 8000]))
  /\
  (bind_at E_8000_taken 0 8000 = BindRaises EADDRINUSE
   /\ bind_at E_8000_taken 1 8001 = Bound
   /\ find_available_port E_8000_taken 2 8000 init_world
      = Some (Returned 8001,
              mkWorld 2 [EvBind 8000 (BindRaises EADDRINUSE);
                         EvBind 8001 Bound; EvClose 8001])).
Proof.
  split.
  - split; [reflexivity|].
    apply (proj1 (find_available_port_first_fit E_free 0 8000 init_world)).
    reflexivity.
  - split; [reflexivity|]. split; [reflexivity|].
    apply (proj2 (find_available_port_first_fit E_8000_taken 0 8000 init_world));
      reflexivity.
Defined.

(** C2.  [find_available_port] terminates on every input: 101 turns of its
    loop are enough whatever the environment answers, and more turns change
    nothing.  When each of the 101 candidates [s], ..., [s + 100] fails
    with address-already-in-use, it raises
    [Exception("Could not find available port")] after those 101 probes. *)
Theorem find_available_port_terminates (E : env) (s : Z) (w : world) :
  (exists r, forall fuel, (101 <= fuel)%nat ->
     find_available_port E fuel s w = Some r)
  /\
  ((forall i, (i < 101)%nat ->
      bind_at E (clock w + i) (s + Z.of_nat i) = BindRaises EADDRINUSE) ->
   forall fuel, (101 <= fuel)%nat ->
     find_available_port E fuel s w
     = Some (Raised (Exception "Could not find available port"),
             failed_probes E 101 s w)
     /\ clock (failed_probes E 101 s w) = (clock w + 101)%nat).
Proof.
  unfold find_available_port. split.
  - apply (find_loop_total E 100). lia.
  - intros Htaken fuel Hfuel. split; [|apply clock_failed_probes].
    replace fuel with (100 + S (fuel - 101))%nat by lia.
    rewrite find_loop_skip; [|intros i Hi; apply Htaken; lia|lia].
    rewrite find_loop_taken.
    + replace (s + Z.of_nat 100 + 1 >? s + 100)%Z with true
        by (symmetry; apply Z.gtb_lt; lia).
      rewrite <- failed_probes_last. reflexivity.
    + rewrite clock_failed_probes. apply Htaken. lia.
Qed.

Lemma find_available_port_terminates_witness :
  (forall i, (i < 101)%nat ->
     bind_at E_all_taken (clock init_world + i) (8000 + Z.of_nat i)
     = BindRaises EADDRINUSE)
  /\ find_available_port E_all_taken 101 8000 init_world
     = Some (Raised (Exception "Could not find available port"),
             failed_probes E_all_taken 101 8000 init_world).
Proof.
  split; [reflexivity|].
  apply (proj2 (find_available_port_terminates E_all_taken 8000 init_world));
    [reflexivity|lia].
Defined.

(** C10.  Whenever [find_available_port(s)] returns a value, the value lies
    in [s, s + 100], and every port it probed on the way lies there too;
    from the default start 8000 the results and the probed ports are all
    valid 16-bit TCP ports. *)
Theorem find_available_port_in_window
    (E : env) (fuel : nat) (s : Z) (w w' : world) (r : result Z) :
  find_available_port E fuel s w = Some (r, w') ->
  (forall v, r = Returned v -> s <= v <= s + 100)
  /\ (exists added,
        log w' = (log w ++ added)%list
        /\ Forall (fun p => s <= p <= s + 100) (probed_ports added))
  /\ (s = 8000 ->
      (forall v, r = Returned v -> 0 <= v <= 65535)
      /\ exists added,
           log w' = (log w ++ added)%list
           /\ Forall (fun p => 0 <= p <= 65535) (probed_ports added)).
Proof.
  intros Hrun. unfold find_available_port in Hrun.
  apply find_loop_range in Hrun; [|lia].
  destruct Hrun as [Hret [added [Hlog Hall]]].
  split; [exact Hret|]. split; [exists added; split; assumption|].
  intros ->. split.
  - intros v Hv. specialize (Hret v Hv). lia.
  - exists added. split; [assumption|].
    eapply Forall_impl; [|exact Hall]. simpl. intros; lia.
Qed.

Lemma find_available_port_in_window_witness :
  find_available_port E_8000_taken 2 8000 init_world
  = Some (Returned 8001,
          mkWorld 2 [EvBind 8000 (BindRaises EADDRINUSE);
                     EvBind 8001 Bound; EvClose 8001])
  /\ 8000 <= 8001 <= 8000 + 100.
Proof.
  split; [reflexivity|].
  refine (proj1 (find_available_port_in_window E_8000_taken 2 8000 init_world
                   _ (Returned 8001) _) 8001 eq_refl).
  reflexivity.
Defined.

(** ** Server *)

Lemma not_retried e : e <> EADDRINUSE -> retried e = false.
Proof.
  intros He. destruct (retried e) eqn:Hr; [|reflexivity].
  apply retried_spec in Hr. contradiction.
Qed.

(** C5.  For every port [p], when the server's construction on [p] fails
    with address-already-in-use, [start_server(p)] does not fail: it prints
    the retry line and its result is that of [start_server(p + 1)].  The
    world [w] it starts from is arbitrary, so this holds whatever the Port
    Finder probed before; and the layer has no window of its own: after
    any number [k] of taken ports in a row, however large, it serves on
    [p + k] when that port is free. *)
Theorem start_server_retries_next_port (E : env) (fuel : nat) (p : Z) (w : world) :
  (bind_at E (clock w) p = BindRaises EADDRINUSE ->
   start_server E (S fuel) p w
   = start_server E fuel (p + 1)
       (mkWorld (S (clock w))
                (log w ++ [EvBind p (BindRaises EADDRINUSE);
                           EvPrint (retry_line p)])))
  /\
  (forall k,
     (forall i, (i < k)%nat ->
        bind_at E (clock w + i) (p + Z.of_nat i) = BindRaises EADDRINUSE) ->
     bind_at E (clock w + k) (p + Z.of_nat k) = Bound ->
     serve_at E (clock w + k) = ServeBlocks ->
     start_server E (k + S fuel) p w
     = Some (Serving, serving_world E (p + Z.of_nat k) (failed_binds E k p w))).
Proof.
  split.
  - intros Htaken. rewrite start_server_retry by assumption.
    unfold tcp_server, print, emit. simpl. rewrite Htaken, <- app_assoc.
    reflexivity.
  - intros k Htaken Hfree Hserve.
    rewrite start_server_skip by assumption.
    apply start_server_serving; rewrite clock_failed_binds; assumption.
Qed.

Lemma start_server_retries_next_port_witness :
  bind_at E_race 1 8000 = BindRaises EADDRINUSE
  /\ start_server E_race 2 8000 (mkWorld 1 [])
     = start_server E_race 1 8001
         (mkWorld 2 [EvBind 8000 (BindRaises EADDRINUSE);
                     EvPrint "Port 8000 is already in use, trying port 8001"])
  /\ start_server E_race 2 8000 (mkWorld 1 [])
     = Some (Serving, serving_world E_race 8001
                        (failed_binds E_race 1 8000 (mkWorld 1 []))).
Proof.
  split; [reflexivity|]. split.
  - apply (proj1 (start_server_retries_next_port E_race 1 8000 (mkWorld 1 []))).
    reflexivity.
  - apply (proj2 (start_server_retries_next_port E_race 0 8000 (mkWorld 1 [])) 1%nat).
    + intros i Hi. assert (i = 0)%nat as -> by lia. reflexivity.
    + reflexivity.
    + reflexivity.
Defined.

(** C6.  A construction failure that is not address-already-in-use is
    propagated unchanged by both layers, with no retry: in the Port Finder
    at whichever candidate of the window it happens (after [k] taken
    ports), in the Server at whichever nested call it happens.  The world
    is left as it was right after the failed construction. *)
Theorem other_bind_errors_propagate
    (E : env) (fuel k : nat) (s : Z) (w : world) (e : exn) :
  (forall i, (i < k)%nat ->
     bind_at E (clock w + i) (s + Z.of_nat i) = BindRaises EADDRINUSE) ->
  bind_at E (clock w + k) (s + Z.of_nat k) = BindRaises e ->
  e <> EADDRINUSE ->
  ((k <= 100)%nat ->
   find_available_port E (k + S fuel) s w
   = Some (Raised e,
           snd (tcp_server E (s + Z.of_nat k) (failed_probes E k s w))))
  /\
  start_server E (k + S fuel) s w
  = Some (Raised e, snd (tcp_server E (s + Z.of_nat k) (failed_binds E k s w))).
Proof.
  intros Htaken Hfail Hother. apply not_retried in Hother. split.
  - intros Hk. unfold find_available_port.
    rewrite find_loop_skip; [|assumption|lia].
    apply find_loop_fatal; [|assumption].
    rewrite clock_failed_probes. assumption.
  - rewrite start_server_skip by assumption.
    apply start_server_fatal; [|assumption].
    rewrite clock_failed_binds. assumption.
Qed.

Lemma other_bind_errors_propagate_witness :
  bind_at (E_denied_after 2) 2 8002 = BindRaises (OSError (Some 13))
  /\ find_available_port (E_denied_after 2) 3 8000 init_world
     = Some (Raised (OSError (Some 13)),
             mkWorld 3 [EvBind 8000 (BindRaises EADDRINUSE);
                        EvBind 8001 (BindRaises EADDRINUSE);
                        EvBind 8002 (BindRaises (OSError (Some 13)))])
  /\ start_server (E_denied_after 2) 3 8000 init_world
     = Some (Raised (OSError (Some 13)),
             mkWorld 3 [EvBind 8000 (BindRaises EADDRINUSE);
                        EvPrint "Port 8000 is already in use, trying port 8001";
                        EvBind 8001 (BindRaises EADDRINUSE);
                        EvPrint "Port 8001 is already in use, trying port 8002";
                        EvBind 8002 (BindRaises (OSError (Some 13)))]).
Proof.
  assert (Htaken : forall i, (i < 2)%nat ->
            bind_at (E_denied_after 2) (clock init_world + i) (8000 + Z.of_nat i)
            = BindRaises EADDRINUSE).
  { intros i Hi. simpl. destruct (Nat.ltb_spec i 2); [reflexivity|lia]. }
  assert (Hother : OSError (Some 13) <> EADDRINUSE) by discriminate.
  split; [reflexivity|]. split.
  - apply (proj1 (other_bind_errors_propagate (E_denied_after 2) 0 2 8000
                    init_world (OSError (Some 13)) Htaken eq_refl Hother)).
    lia.
  - apply (proj2 (other_bind_errors_propagate (E_denied_after 2) 0 2 8000
                    init_world (OSError (Some 13)) Htaken eq_refl Hother)).
Defined.

(** C9.  The address-already-in-use condition is recognised by
    [e.errno == 48] and by nothing else.  An [OSError] whose errno is
    anything but 48 (98, the Linux code for the same condition, or no
    errno at all) is raised again by [find_available_port] and by
    [start_server] after the single failed construction; with errno 48
    each of them goes on to the next port. *)
Theorem errno_48_only
    (E : env) (fuel : nat) (port : Z) (w : world) (errno : option Z) :
  bind_at E (clock w) port = BindRaises (OSError errno) ->
  let w1 := mkWorld (S (clock w))
                    (log w ++ [EvBind port (BindRaises (OSError errno))]) in
  (errno <> Some 48 ->
   find_available_port E (S fuel) port w = Some (Raised (OSError errno), w1)
   /\ start_server E (S fuel) port w = Some (Raised (OSError errno), w1))
  /\
  (errno = Some 48 ->
   find_available_port E (S fuel) port w = find_loop E fuel port (port + 1) w1
   /\ start_server E (S fuel) port w
      = start_server E fuel (port + 1) (print (retry_line port) w1)).
Proof.
  intros Hfail w1. split.
  - intros Hno. assert (Hr : retried (OSError errno) = false)
      by (apply errno_not_48, Hno).
    unfold find_available_port.
    rewrite (find_loop_fatal E fuel port port w _ Hfail Hr).
    rewrite (start_server_fatal E fuel port w _ Hfail Hr).
    unfold tcp_server. rewrite Hfail. split; reflexivity.
  - intros ->. unfold find_available_port.
    rewrite (find_loop_taken E fuel port port w Hfail).
    rewrite (start_server_retry E fuel port w Hfail).
    replace (port + 1 >? port + 100)%Z with false
      by (symmetry; rewrite Z.gtb_ltb; apply Z.ltb_ge; lia).
    unfold tcp_server. rewrite Hfail. split; reflexivity.
Qed.

Lemma errno_48_only_witness :
  bind_at E_errno_98 0 8000 = BindRaises (OSError (Some 98))
  /\ Some 98 <> Some 48
  /\ find_available_port E_errno_98 1 8000 init_world
     = Some (Raised (OSError (Some 98)),
             mkWorld 1 [EvBind 8000 (BindRaises (OSError (Some 98)))])
  /\ start_server E_errno_98 1 8000 init_world
     = Some (Raised (OSError (Some 98)),
             mkWorld 1 [EvBind 8000 (BindRaises (OSError (Some 98)))]).
Proof.
  assert (Hno : Some 98 <> Some 48) by discriminate.
  split; [reflexivity|]. split; [exact Hno|].
  exact (proj1 (errno_48_only E_errno_98 0 8000 init_world (Some 98) eq_refl) Hno).
Defined.

(** ** The main program *)

Section MainProgram.

Variable E : env.

(** The Port Finder never ends up serving, and leaves only probes in the
    log. *)
Lemma find_loop_events fuel : forall start port w r w',
  find_loop E fuel start port w = Some (r, w') ->
  r <> Serving
  /\ exists added, log w' = (log w ++ added)%list /\ Forall probe_event added.
Proof.
  induction fuel as [|fuel IH]; intros start port w r w' Hrun; [discriminate|].
  cbn [find_loop] in Hrun. unfold tcp_server in Hrun.
  set (b := bind_at E (clock w) port) in *.
  assert (Hstop : forall x, Some (Raised x, mkWorld (S (clock w))
              (log w ++ [EvBind port b])%list) = Some (r, w') ->
            r <> Serving
            /\ exists added, log w' = (log w ++ added)%list
                 /\ Forall probe_event added).
  { intros x Hx. inversion Hx; subst. split; [discriminate|].
    exists [EvBind port b]. split; [reflexivity|].
    constructor; [exact I|constructor]. }
  destruct b as [|e] eqn:Hb.
  - inversion Hrun; subst. split; [discriminate|].
    exists [EvBind port Bound; EvClose port]. split.
    + simpl. rewrite <- app_assoc. reflexivity.
    + repeat constructor.
  - destruct e as [errno| | |]; try (eapply Hstop; eassumption).
    destruct (errno_is_48 errno); [|eapply Hstop; eassumption].
    destruct (port + 1 >? start + 100)%Z; [eapply Hstop; eassumption|].
    apply IH in Hrun. destruct Hrun as [Hr [added [Hlog Hall]]].
    split; [exact Hr|].
    exists (EvBind port (BindRaises (OSError errno)) :: added). split.
    + rewrite Hlog. simpl. rewrite <- app_assoc. reflexivity.
    + constructor; [exact I|exact Hall].
Qed.

(** [start_server] leaves only its own events in the log; it returns
    only when some [serve_forever] returned. *)
Lemma start_server_events fuel : forall port w r w',
  start_server E fuel port w = Some (r, w') ->
  (exists added, log w' = (log w ++ added)%list /\ Forall server_event added)
  /\ (forall v, r = Returned v -> exists n, serve_at E n = ServeReturns).
Proof.
  induction fuel as [|fuel IH]; intros port w r w' Hrun; [discriminate|].
  cbn [start_server] in Hrun. unfold tcp_server in Hrun.
  set (b := bind_at E (clock w) port) in *.
  assert (Hhandler : forall e w1 mid,
    log w1 = (log w ++ mid)%list -> Forall server_event mid ->
    match e with
    | OSError errno =>
        if errno_is_48 errno
        then start_server E fuel (port + 1) (print (retry_line port) w1)
        else Some (Raised e, w1)
    | _ => Some (Raised e, w1)
    end = Some (r, w') ->
    (exists added, log w' = (log w ++ added)%list /\ Forall server_event added)
    /\ (forall v, r = Returned v -> exists n, serve_at E n = ServeReturns)).
  { intros e w1 mid Hw1 Hmid Hh.
    assert (Hstop : Some (Raised e, w1) = Some (r, w') ->
      (exists added, log w' = (log w ++ added)%list /\ Forall server_event added)
      /\ (forall v, r = Returned v -> exists n, serve_at E n = ServeReturns)).
    { intros Hx. inversion Hx; subst. split; [|discriminate].
      exists mid. split; assumption. }
    destruct e as [errno| | |]; try (apply Hstop; assumption).
    destruct (errno_is_48 errno); [|apply Hstop; assumption].
    apply IH in Hh. destruct Hh as [[added [Hlog Hall]] Hret].
    split; [|exact Hret].
    exists (mid ++ EvPrint (retry_line port) :: added)%list. split.
    - rewrite Hlog. simpl. rewrite Hw1, <- !app_assoc. reflexivity.
    - apply Forall_app. split; [assumption|].
      constructor; [exact I|assumption]. }
  destruct b as [|e] eqn:Hb.
  - destruct (serve_at E (clock w)) as [|e|] eqn:Hs.
    + inversion Hrun; subst. split; [|discriminate].
      eexists. split; [simpl; rewrite <- !app_assoc; reflexivity|].
      repeat constructor.
    + eapply (Hhandler e); [| |exact Hrun].
      * simpl. rewrite <- !app_assoc. reflexivity.
      * repeat constructor.
    + inversion Hrun; subst. split; [|intros; eexists; exact Hs].
      eexists. split; [simpl; rewrite <- !app_assoc; reflexivity|].
      repeat constructor.
  - eapply (Hhandler e _ [EvBind port (BindRaises e)]); [| |exact Hrun].
    + reflexivity.
    + repeat constructor.
Qed.

(** A server bound at the first attempt serves on the port it was given. *)
Lemma start_server_serves_first fuel port w r w' :
  start_server E fuel port w = Some (r, w') ->
  bind_at E (clock w) port = Bound ->
  exists rest,
    log w' = (log w ++ [EvBind port Bound;
                        EvPrint ("Server running at " ++ localhost_url port);
                        EvPrint "Press Ctrl+C to stop the server";
                        EvServe port] ++ rest)%list.
Proof.
  destruct fuel as [|fuel]; intros Hrun Hb; [discriminate|].
  cbn [start_server] in Hrun. unfold tcp_server in Hrun. rewrite Hb in Hrun.
  destruct (serve_at E (clock w)) as [|e|].
  - inversion Hrun; subst. exists []. simpl. rewrite <- !app_assoc. reflexivity.
  - assert (Hstop : forall w1, Some (Raised e, emit (EvClose port) w1) = Some (r, w') ->
              exists rest, log w' = (log w1 ++ rest)%list).
    { intros w1 Hx. inversion Hx; subst. eexists. reflexivity. }
    set (w4 := emit (EvServe port) _) in Hrun.
    assert (Hw4 : exists rest, log w' = (log w4 ++ rest)%list).
    { destruct e as [errno| | |]; try (apply Hstop; assumption).
      destruct (errno_is_48 errno); [|apply Hstop; assumption].
      apply start_server_events in Hrun. destruct Hrun as [[added [Hlog _]] _].
      eexists. rewrite Hlog. simpl. rewrite <- !app_assoc. reflexivity. }
    destruct Hw4 as [rest Hrest]. exists rest. rewrite Hrest. subst w4. simpl.
    rewrite <- !app_assoc. reflexivity.
  - inversion Hrun; subst. eexists. simpl. rewrite <- !app_assoc. reflexivity.
Qed.

(** The runs of the main program, case by case. *)
Lemma main_cases fuel r :
  main E fuel = Some r ->
  (exists e w1,
     find_available_port E fuel 8000 init_world = Some (Raised e, w1)
     /\ r = mkRun (Uncaught e) w1 None)
  \/
  (exists p w1 res w3,
     find_available_port E fuel 8000 init_world = Some (Returned p, w1)
     /\ start_server E fuel p (emit (EvThreadStart p) w1) = Some (res, w3)
     /\ launcher r = Some (open_in_safari E p init_world)
     /\ ((res = Raised KeyboardInterrupt
          /\ ending r = SysExit 0
          /\ main_world r = print (newline ++ "Server stopped.") w3)
         \/ (exists e, res = Raised e /\ e <> KeyboardInterrupt
                       /\ ending r = Uncaught e /\ main_world r = w3)
         \/ (exists v, res = Returned v
                       /\ ending r = FellOffTheEnd /\ main_world r = w3)
         \/ (res = Serving /\ ending r = ServesForever /\ main_world r = w3))).
Proof.
  unfold main. intros Hmain.
  destruct (find_available_port E fuel 8000 init_world) as [[res1 w1]|] eqn:Hfind;
    [|discriminate].
  destruct res1 as [p|e|].
  - right.
    destruct (start_server E fuel p (emit (EvThreadStart p) w1))
      as [[res w3]|] eqn:Hsrv; [|discriminate].
    exists p, w1, res, w3. split; [reflexivity|]. split; [exact Hsrv|].
    destruct res as [v|e|].
    + inversion Hmain; subst. simpl. split; [reflexivity|].
      right. right. left. exists v. auto.
    + destruct e as [errno| |msg|name]; inversion Hmain; subst; simpl;
        (split; [reflexivity|]).
      * right. left. eexists. repeat split; discriminate.
      * left. auto.
      * right. left. eexists. repeat split; discriminate.
      * right. left. eexists. repeat split; discriminate.
    + inversion Hmain; subst. simpl. split; [reflexivity|].
      right. right. right. auto.
  - left. inversion Hmain; subst. exists e, w1. split; reflexivity.
  - unfold find_available_port in Hfind.
    apply find_loop_events in Hfind. destruct Hfind as [Hns _].
    contradiction Hns. reflexivity.
Qed.

(** The main thread's log of a run in which the Port Finder returned
    [p]: the Port Finder's probes, then the start of the launcher thread
    with [p], then what [start_server(p)] did, its first construction
    first, and the shutdown message if there is one. *)
Lemma main_log fuel r p w1 :
  main E fuel = Some r ->
  find_available_port E fuel 8000 init_world = Some (Returned p, w1) ->
  Forall probe_event (log w1)
  /\ exists rest,
       log (main_world r)
       = (log w1 ++ EvThreadStart p :: EvBind p (bind_at E (clock w1) p) :: rest)%list
       /\ Forall server_event rest
       /\ (bind_at E (clock w1) p = Bound ->
           exists rest',
             rest = ([EvPrint ("Server running at " ++ localhost_url p);
                      EvPrint "Press Ctrl+C to stop the server";
                      EvServe p] ++ rest')%list).
Proof.
  intros Hmain Hfind. split.
  { unfold find_available_port in Hfind. apply find_loop_events in Hfind.
    destruct Hfind as [_ [added [Hlog Hall]]]. rewrite Hlog. exact Hall. }
  destruct (main_cases fuel r Hmain)
    as [[e [w1' [Hfind' _]]] | [p' [w1' [res [w3 [Hfind' [Hsrv [_ Hcases]]]]]]]];
    rewrite Hfind in Hfind'; inversion Hfind'; subst p' w1'.
  assert (Hw3 : exists rest,
    log w3 = (log w1 ++ EvThreadStart p :: EvBind p (bind_at E (clock w1) p) :: rest)%list
    /\ Forall server_event rest
    /\ (bind_at E (clock w1) p = Bound ->
        exists rest',
          rest = ([EvPrint ("Server running at " ++ localhost_url p);
                   EvPrint "Press Ctrl+C to stop the server";
                   EvServe p] ++ rest')%list)).
  { destruct (start_server_first_bind E fuel _ _ _ _ Hsrv) as [rest Hrest].
    destruct (start_server_events fuel _ _ _ _ Hsrv) as [[added [Hadd Hall]] _].
    simpl in Hrest, Hadd. exists rest. split; [|split].
    - rewrite Hrest, <- app_assoc. reflexivity.
    - rewrite Hadd in Hrest. apply app_inv_head in Hrest. subst added.
      inversion Hall; assumption.
    - intros Hb.
      destruct (start_server_serves_first fuel _ _ _ _ Hsrv Hb) as [rest' Hrest'].
      simpl in Hrest'. rewrite Hrest' in Hrest. apply app_inv_head in Hrest.
      simpl in Hrest. inversion Hrest. exists rest'. reflexivity. }
  destruct Hw3 as [rest [Hlog [Hall Hserve]]].
  destruct Hcases as [[_ [_ Hw]] | [[e [_ [_ [_ Hw]]]] | [[v [_ [_ Hw]]] | [_ [_ Hw]]]]];
    rewrite Hw; try (exists rest; repeat split; assumption).
  exists (rest ++ [EvPrint (newline ++ "Server stopped.")])%list.
  split; [|split].
  - simpl. rewrite Hlog, <- app_assoc. reflexivity.
  - apply Forall_app. split; [assumption|]. repeat constructor.
  - intros Hb. destruct (Hserve Hb) as [rest' ->].
    eexists. rewrite <- app_assoc. reflexivity.
Qed.

End MainProgram.

(** C7.  A user interrupt that arrives while the server runs comes out of
    [start_server] as [KeyboardInterrupt]; the main program catches it,
    prints the shutdown message as its last line and calls [sys.exit(0)].
    It is the only way to that exit: [sys.exit] is reached with no other
    status and from no other exception, and the script runs to its last
    line only if [serve_forever] returned, which it does not do without a
    shutdown request. *)
Theorem interrupt_exits_zero (E : env) (fuel : nat) :
  (forall p w,
     bind_at E (clock w) p = Bound ->
     serve_at E (clock w) = ServeRaises KeyboardInterrupt ->
     start_server E (S fuel) p w
     = Some (Raised KeyboardInterrupt, emit (EvClose p) (serving_world E p w)))
  /\
  (forall p w1 w3,
     find_available_port E fuel 8000 init_world = Some (Returned p, w1) ->
     start_server E fuel p (emit (EvThreadStart p) w1)
     = Some (Raised KeyboardInterrupt, w3) ->
     exists r,
       main E fuel = Some r
       /\ ending r = SysExit 0
       /\ main_world r = print (newline ++ "Server stopped.") w3)
  /\
  (forall r status,
     main E fuel = Some r ->
     ending r = SysExit status ->
     status = 0
     /\ exists p w1 w3,
          find_available_port E fuel 8000 init_world = Some (Returned p, w1)
          /\ start_server E fuel p (emit (EvThreadStart p) w1)
             = Some (Raised KeyboardInterrupt, w3)
          /\ main_world r = print (newline ++ "Server stopped.") w3)
  /\
  (forall r,
     main E fuel = Some r ->
     ending r = FellOffTheEnd ->
     exists n, serve_at E n = ServeReturns).
Proof.
  split; [|split; [|split]].
  - intros p w Hb Hs. apply start_server_serve_raises; auto.
  - intros p w1 w3 Hfind Hsrv. unfold main. rewrite Hfind, Hsrv.
    eexists. split; [reflexivity|]. split; reflexivity.
  - intros r status Hmain Hend.
    destruct (main_cases E fuel r Hmain)
      as [[e [w1 [_ ->]]] | [p [w1 [res [w3 [Hfind [Hsrv [_ Hcases]]]]]]]].
    + discriminate.
    + destruct Hcases as [[-> [He Hw]] | [[e [_ [_ [He _]]]] | [[v [_ [He _]]] | [_ [He _]]]]];
        rewrite He in Hend; try discriminate.
      inversion Hend; subst. split; [reflexivity|]. exists p, w1, w3. auto.
  - intros r Hmain Hend.
    destruct (main_cases E fuel r Hmain)
      as [[e [w1 [_ ->]]] | [p [w1 [res [w3 [Hfind [Hsrv [_ Hcases]]]]]]]].
    + discriminate.
    + destruct Hcases as [[_ [He _]] | [[e [_ [_ [He _]]]] | [[v [-> _]] | [_ [He _]]]]];
        try (rewrite He in Hend; discriminate).
      apply start_server_events in Hsrv. destruct Hsrv as [_ Hret].
      apply (Hret v). reflexivity.
Qed.

Lemma interrupt_exits_zero_witness :
  find_available_port E_interrupt 1 8000 init_world
  = Some (Returned 8000, mkWorld 1 [EvBind 8000 Bound; EvClose 8000])
  /\ serve_at E_interrupt 1 = ServeRaises KeyboardInterrupt
  /\ exists r,
       main E_interrupt 1 = Some r
       /\ ending r = SysExit 0
       /\ printed (log (main_world r))
          = ["Server running at http://localhost:8000/";
             "Press Ctrl+C to stop the server";
             newline ++ "Server stopped."].
Proof.
  split; [reflexivity|]. split; [reflexivity|].
  destruct (proj1 (proj2 (interrupt_exits_zero E_interrupt 1)) 8000
              (mkWorld 1 [EvBind 8000 Bound; EvClose 8000])
              (emit (EvClose 8000)
                 (serving_world E_interrupt 8000
                    (emit (EvThreadStart 8000)
                       (mkWorld 1 [EvBind 8000 Bound; EvClose 8000]))))
              eq_refl eq_refl)
    as [r [Hmain [Hend Hworld]]].
  exists r. split; [exact Hmain|]. split; [exact Hend|].
  rewrite Hworld. reflexivity.
Defined.

(** C8.  In the main program the Port Finder has completed, with its port
    [p], before the launcher thread is started and before the server
    attempts a bind: the main thread's log is the Port Finder's probes,
    then the thread start, then the server's events, the first of which is
    its construction on [p]; the launcher is [open_in_safari(p)] and the
    server is [start_server(p)], the same [p].  When the Port Finder
    raises, neither of the two happens. *)
Theorem finder_runs_first (E : env) (fuel : nat) (r : run) :
  main E fuel = Some r ->
  (exists e w1,
     find_available_port E fuel 8000 init_world = Some (Raised e, w1)
     /\ r = mkRun (Uncaught e) w1 None
     /\ Forall probe_event (log w1))
  \/
  (exists p w1 res w3 rest,
     find_available_port E fuel 8000 init_world = Some (Returned p, w1)
     /\ launcher r = Some (open_in_safari E p init_world)
     /\ start_server E fuel p (emit (EvThreadStart p) w1) = Some (res, w3)
     /\ log (main_world r)
        = (log w1 ++ EvThreadStart p :: EvBind p (bind_at E (clock w1) p) :: rest)%list
     /\ Forall probe_event (log w1)
     /\ Forall server_event rest).
Proof.
  intros Hmain.
  destruct (main_cases E fuel r Hmain)
    as [[e [w1 [Hfind Hr]]] | [p [w1 [res [w3 [Hfind [Hsrv [Hl _]]]]]]]].
  - left. exists e, w1. split; [exact Hfind|]. split; [exact Hr|].
    unfold find_available_port in Hfind. apply find_loop_events in Hfind.
    destruct Hfind as [_ [added [Hlog Hall]]]. rewrite Hlog. exact Hall.
  - right. destruct (main_log E fuel r p w1 Hmain Hfind)
      as [Hprobes [rest [Hlog [Hall _]]]].
    exists p, w1, res, w3, rest. auto 6.
Qed.

Lemma finder_runs_first_witness :
  exists r,
    main E_8000_taken 3 = Some r
    /\ exists w1 rest,
         find_available_port E_8000_taken 3 8000 init_world
         = Some (Returned 8001, w1)
         /\ launcher r = Some (open_in_safari E_8000_taken 8001 init_world)
         /\ log (main_world r)
            = (log w1 ++ EvThreadStart 8001 :: EvBind 8001 Bound :: rest)%list.
Proof.
  eexists. split; [reflexivity|].
  destruct (finder_runs_first E_8000_taken 3 _ eq_refl)
    as [[e [w1 [Hfind _]]] | [p [w1 [res [w3 [rest [Hfind [Hl [_ [Hlog _]]]]]]]]]].
  - discriminate Hfind.
  - inversion Hfind; subst p w1. eexists. exists rest.
    split; [reflexivity|]. split; [exact Hl|exact Hlog].
Defined.

(** ** Launcher *)

(** C3.  The launcher misses its fallback.  Whatever status [os.system]
    returns for the Safari command, the status of a command that could not
    be run included, [open_in_safari] prints the Safari line and ends
    without calling [webbrowser.open]: the call of the default browser
    sits in the bare [except], which only an exception of [os.system]
    reaches, and [os.system] reports a missing [open] or Safari by its
    return value.  So [webbrowser.open] is called exactly when
    [os.system] raised. *)
Theorem open_in_safari_misses_fallback (E : env) (port : Z) (w : world) :
  let url := localhost_url port in
  let cmd := safari_command url in
  (forall status, os_system E cmd = CallReturns status ->
     open_in_safari E port w
     = (Returned tt,
        mkWorld (clock w)
          (log w ++ [EvSleep 1500; EvOsSystem cmd;
                     EvPrint ("Opening " ++ url ++ " in Safari...")])))
  /\
  (exists added,
     log (snd (open_in_safari E port w)) = (log w ++ added)%list
     /\ (In (EvWebbrowserOpen url) added
         <-> exists e, os_system E cmd = CallRaises e)).
Proof.
  intros url cmd. unfold open_in_safari. fold url. fold cmd. split.
  - intros status Hsys. rewrite Hsys.
    unfold print, emit. cbn [log clock]. rewrite <- !app_assoc. reflexivity.
  - destruct (os_system E cmd) as [status|e0] eqn:Hsys.
    + exists [EvSleep 1500; EvOsSystem cmd;
              EvPrint ("Opening " ++ url ++ " in Safari...")]. split.
      * unfold print, emit. cbn [log snd]. rewrite <- !app_assoc. reflexivity.
      * split.
        -- intros [Hin|[Hin|[Hin|[]]]]; discriminate Hin.
        -- intros [e He]. discriminate He.
    + destruct (webbrowser_open E url) as [opened|e1].
      * exists [EvSleep 1500; EvOsSystem cmd; EvWebbrowserOpen url;
                EvPrint ("Opening " ++ url ++ " in default browser...")]. split.
        -- unfold print, emit. cbn [log snd]. rewrite <- !app_assoc. reflexivity.
        -- split; [intros _; exists e0; reflexivity|].
           intros _. right. right. left. reflexivity.
      * exists [EvSleep 1500; EvOsSystem cmd; EvWebbrowserOpen url]. split.
        -- unfold emit. cbn [log snd]. rewrite <- !app_assoc. reflexivity.
        -- split; [intros _; exists e0; reflexivity|].
           intros _. right. right. left. reflexivity.
Qed.

Lemma open_in_safari_misses_fallback_witness :
  os_system E_no_open (safari_command (localhost_url 8000)) = CallReturns 32512
  /\ open_in_safari E_no_open 8000 init_world
     = (Returned tt,
        mkWorld 0
          [EvSleep 1500;
           EvOsSystem (safari_command "http://localhost:8000/");
           EvPrint "Opening http://localhost:8000/ in Safari..."])
  /\ browser_opens (log (snd (open_in_safari E_no_open 8000 init_world)))
     = [safari_command "http://localhost:8000/"].
Proof.
  split; [reflexivity|]. split; [|reflexivity].
  exact (proj1 (open_in_safari_misses_fallback E_no_open 8000 init_world)
           32512 eq_refl).
Defined.

(** The sibling path: when [os.system] itself raises, the default browser
    is opened and the line says so. *)
Lemma fallback_when_os_system_raises :
  open_in_safari E_no_safari 8000 init_world
  = (Returned tt,
     mkWorld 0
       [EvSleep 1500;
        EvOsSystem (safari_command "http://localhost:8000/");
        EvWebbrowserOpen "http://localhost:8000/";
        EvPrint "Opening http://localhost:8000/ in default browser..."]).
Proof. reflexivity. Qed.

(** The main thread does not depend on the browser calls: how it ends and
    what it logs is decided by the bind and serve oracles. *)
Lemma main_thread_ignores_browser (E E' : env) (fuel : nat) :
  (forall n p, bind_at E n p = bind_at E' n p) ->
  (forall n, serve_at E n = serve_at E' n) ->
  option_map (fun r => (ending r, main_world r)) (main E fuel)
  = option_map (fun r => (ending r, main_world r)) (main E' fuel).
Proof.
  intros Hb Hs. unfold main, find_available_port.
  rewrite (find_loop_ext E E' fuel 8000 8000 init_world Hb).
  destruct (find_loop E' fuel 8000 8000 init_world) as [[[p|e|] w1]|];
    try reflexivity.
  rewrite (start_server_ext E E' fuel p _ Hb Hs).
  destruct (start_server E' fuel p (emit (EvThreadStart p) w1))
    as [[[v|e|] w3]|]; try reflexivity.
  destruct e; reflexivity.
Qed.




(** * Further properties of the script *)

(** ** Port Finder: first fit in general *)

Lemma find_loop_sound (E : env) fuel : forall start port w v w',
  find_loop E fuel start port w = Some (Returned v, w') ->
  exists k,
    v = port + Z.of_nat k
    /\ (k = 0%nat \/ v <= start + 100)
    /\ (forall i, (i < k)%nat ->
          bind_at E (clock w + i) (port + Z.of_nat i) = BindRaises EADDRINUSE)
    /\ bind_at E (clock w + k) v = Bound
    /\ clock w' = (clock w + k + 1)%nat.
Proof.
  induction fuel as [|fuel IH]; intros start port w v w' Hrun; [discriminate|].
  cbn [find_loop] in Hrun. unfold tcp_server in Hrun.
  destruct (bind_at E (clock w) port) as [|e] eqn:Hb.
  - inversion Hrun; subst. exists 0%nat.
    rewrite Z.add_0_r, Nat.add_0_r. repeat split; auto.
    + intros i Hi. lia.
    + simpl. lia.
  - destruct e as [errno| | |]; try discriminate.
    destruct (errno_is_48 errno) eqn:H48; [|discriminate].
    apply errno_is_48_spec in H48. subst errno.
    destruct (port + 1 >? start + 100)%Z eqn:Hgt; [discriminate|].
    assert (Hle : port + 1 <= start + 100).
    { destruct (Z.gtb_spec (port + 1) (start + 100)); [discriminate|assumption]. }
    apply IH in Hrun. destruct Hrun as [k [Hv [Hwin [Htaken [Hfree Hclock]]]]].
    simpl clock in *. exists (S k). repeat split.
    + lia.
    + right. destruct Hwin as [-> | Hwin]; lia.
    + intros [|i] Hi.
      * rewrite Nat.add_0_r, Z.add_0_r. exact Hb.
      * replace (clock w + S i)%nat with (S (clock w) + i)%nat by lia.
        replace (port + Z.of_nat (S i)) with (port + 1 + Z.of_nat i) by lia.
        apply Htaken. lia.
    + replace (clock w + S k)%nat with (S (clock w) + k)%nat by lia. exact Hfree.
    + lia.
Qed.

(** X1.  First fit for any number of taken ports: when the first [k]
    candidates, [k <= 100], are taken at their probes and the next one is
    free, [find_available_port(s)] returns [s + k] after [k + 1] probes
    and has closed the server it found. *)
Theorem find_available_port_skips_taken
    (E : env) (fuel k : nat) (s : Z) (w : world) :
  (k <= 100)%nat ->
  (forall i, (i < k)%nat ->
     bind_at E (clock w + i) (s + Z.of_nat i) = BindRaises EADDRINUSE) ->
  bind_at E (clock w + k) (s + Z.of_nat k) = Bound ->
  find_available_port E (k + S fuel) s w
  = Some (Returned (s + Z.of_nat k),
          mkWorld (clock w + k + 1)
                  (log (failed_probes E k s w)
                   ++ [EvBind (s + Z.of_nat k) Bound; EvClose (s + Z.of_nat k)])).
Proof.
  intros Hk Htaken Hfree. unfold find_available_port.
  rewrite find_loop_skip; [|assumption|lia].
  rewrite find_loop_bound by (rewrite clock_failed_probes; assumption).
  unfold tcp_server, emit. simpl.
  rewrite clock_failed_probes, Hfree, <- app_assoc.
  do 3 f_equal. lia.
Qed.

Lemma find_available_port_skips_taken_witness :
  find_available_port E_8000_taken 2 8000 init_world
  = Some (Returned 8001,
          mkWorld 2 [EvBind 8000 (BindRaises EADDRINUSE);
                     EvBind 8001 Bound; EvClose 8001]).
Proof.
  apply (find_available_port_skips_taken E_8000_taken 0 1 8000 init_world).
  - lia.
  - intros i Hi. assert (i = 0)%nat as -> by lia. reflexivity.
  - reflexivity.
Defined.

(** X2.  What a returned port means: when [find_available_port(s)] returns
    [v], then [v = s + k] for some [k <= 100], the construction on [v]
    succeeded, each of [s], ..., [v - 1] was found taken (errno 48) at its
    own probe, and exactly [k + 1] constructions were made. *)
Theorem find_available_port_returns_first_free
    (E : env) (fuel : nat) (s v : Z) (w w' : world) :
  find_available_port E fuel s w = Some (Returned v, w') ->
  exists k,
    (k <= 100)%nat
    /\ v = s + Z.of_nat k
    /\ (forall i, (i < k)%nat ->
          bind_at E (clock w + i) (s + Z.of_nat i) = BindRaises EADDRINUSE)
    /\ bind_at E (clock w + k) v = Bound
    /\ clock w' = (clock w + k + 1)%nat.
Proof.
  intros Hrun. apply find_loop_sound in Hrun.
  destruct Hrun as [k [Hv [Hwin [Htaken [Hfree Hclock]]]]].
  exists k. repeat split; try assumption.
  destruct Hwin as [-> | Hwin]; lia.
Qed.

Lemma find_available_port_returns_first_free_witness :
  exists k,
    (k <= 100)%nat
    /\ 8001 = 8000 + Z.of_nat k
    /\ bind_at E_8000_taken (0 + k) 8001 = Bound.
Proof.
  destruct (find_available_port_returns_first_free E_8000_taken 2 8000 8001
              init_world _ eq_refl) as [k [Hk [Hv [_ [Hfree _]]]]].
  exists k. split; [exact Hk|]. split; [exact Hv|exact Hfree].
Defined.

(** ** The shape of a log *)

Lemma probed_ports_app l1 l2 :
  probed_ports (l1 ++ l2) = (probed_ports l1 ++ probed_ports l2)%list.
Proof.
  induction l1 as [|ev l1 IH]; simpl; [reflexivity|].
  destruct ev; simpl; rewrite IH; reflexivity.
Qed.

Lemma printed_app l1 l2 :
  printed (l1 ++ l2) = (printed l1 ++ printed l2)%list.
Proof.
  induction l1 as [|ev l1 IH]; simpl; [reflexivity|].
  destruct ev; simpl; rewrite IH; reflexivity.
Qed.

Lemma announcements_app l1 l2 :
  announcements (l1 ++ l2) = (announcements l1 ++ announcements l2)%list.
Proof.
  unfold announcements. rewrite printed_app. apply filter_app.
Qed.

Lemma socket_state_app l1 : forall st l2,
  socket_state st (l1 ++ l2)
  = match socket_state st l1 with
    | Some st' => socket_state st' l2
    | None => None
    end.
Proof.
  induction l1 as [|ev l1 IH]; intros st l2; [reflexivity|].
  destruct ev; simpl; try apply IH.
  - destruct st; [reflexivity|]. destruct r; apply IH.
  - destruct st as [q|]; [|reflexivity]. destruct (port =? q)%Z; [apply IH|reflexivity].
  - destruct st as [q|]; [|reflexivity]. destruct (port =? q)%Z; [apply IH|reflexivity].
Qed.

Lemma announces_running p :
  String.prefix "Server running at " (running_line p) = true.
Proof. reflexivity. Qed.

Lemma retry_line_no_announcement p :
  String.prefix "Server running at " (retry_line p) = false.
Proof. reflexivity. Qed.

Section ServerSteps.

Variable E : env.

(** One call of [start_server], case by case: it stops at this call, or
    its result is that of the call on the next port. *)
Lemma start_server_step fuel port w r w' :
  start_server E (S fuel) port w = Some (r, w') ->
  let served :=
    [EvBind port Bound; EvPrint (running_line port);
     EvPrint "Press Ctrl+C to stop the server"; EvServe port] in
  (exists e,
     bind_at E (clock w) port = BindRaises e /\ retried e = false
     /\ r = Raised e
     /\ w' = mkWorld (S (clock w)) (log w ++ [EvBind port (BindRaises e)]))
  \/ (bind_at E (clock w) port = BindRaises EADDRINUSE
      /\ start_server E fuel (port + 1)
           (mkWorld (S (clock w))
              (log w ++ [EvBind port (BindRaises EADDRINUSE);
                         EvPrint (retry_line port)]))
         = Some (r, w'))
  \/ (bind_at E (clock w) port = Bound
      /\ serve_at E (clock w) = ServeBlocks
      /\ r = Serving
      /\ w' = mkWorld (S (clock w)) (log w ++ served))
  \/ (bind_at E (clock w) port = Bound
      /\ serve_at E (clock w) = ServeReturns
      /\ r = Returned port
      /\ w' = mkWorld (S (clock w)) (log w ++ served ++ [EvClose port]))
  \/ (exists e,
        bind_at E (clock w) port = Bound
        /\ serve_at E (clock w) = ServeRaises e /\ retried e = false
        /\ r = Raised e
        /\ w' = mkWorld (S (clock w)) (log w ++ served ++ [EvClose port]))
  \/ (bind_at E (clock w) port = Bound
      /\ serve_at E (clock w) = ServeRaises EADDRINUSE
      /\ start_server E fuel (port + 1)
           (mkWorld (S (clock w))
              (log w ++ served ++ [EvClose port; EvPrint (retry_line port)]))
         = Some (r, w')).
Proof.
  intros Hrun served. subst served.
  destruct (bind_at E (clock w) port) as [|e] eqn:Hb.
  - right. right.
    destruct (serve_at E (clock w)) as [|e|] eqn:Hs.
    + left. rewrite (start_server_serving E fuel port w Hb Hs) in Hrun.
      inversion Hrun; subst. repeat split.
      unfold serving_world, tcp_server, print, emit. cbn [log clock snd].
      rewrite Hb, <- !app_assoc. reflexivity.
    + right. right. destruct (retried e) eqn:He.
      * right. apply retried_spec in He. subst e.
        repeat split. rewrite <- Hrun.
        cbn [start_server]. unfold tcp_server, print, emit. rewrite Hb, Hs.
        cbn [log clock snd]. rewrite <- !app_assoc. reflexivity.
      * left. exists e.
        rewrite (start_server_serve_raises E fuel port w e Hb Hs He) in Hrun.
        inversion Hrun; subst. repeat split; try assumption.
        unfold serving_world, tcp_server, print, emit. cbn [log clock snd].
        rewrite Hb, <- !app_assoc. reflexivity.
    + right. left. cbn [start_server] in Hrun. unfold tcp_server in Hrun.
      rewrite Hb, Hs in Hrun. inversion Hrun; subst. repeat split.
      unfold print, emit. cbn [log clock snd]. rewrite <- !app_assoc. reflexivity.
  - destruct (retried e) eqn:He.
    + right. left. apply retried_spec in He. subst e. split; [reflexivity|].
      rewrite (start_server_retry E fuel port w Hb) in Hrun. rewrite <- Hrun.
      unfold tcp_server, print, emit. cbn [log clock snd].
      rewrite Hb, <- app_assoc. reflexivity.
    + left. exists e. rewrite (start_server_fatal E fuel port w e Hb He) in Hrun.
      inversion Hrun; subst. repeat split; try assumption.
      unfold tcp_server. rewrite Hb. reflexivity.
Qed.

(** The log of a run of [start_server], read through the observations. *)
Lemma start_server_trace fuel : forall port w r w',
  start_server E fuel port w = Some (r, w') ->
  exists n added,
    log w' = (log w ++ added)%list
    /\ clock w' = (clock w + S n)%nat
    /\ probed_ports added = ports_from port (S n)
    /\ (forall v, r = Returned v -> v = port + Z.of_nat n)
    /\ socket_state None added
       = Some (match r with Serving => Some (port + Z.of_nat n) | _ => None end)
    /\ announcements added = map running_line (served_ports added)
    /\ ((forall e, r <> Raised e) ->
        exists earlier, served_ports added = (earlier ++ [port + Z.of_nat n])%list).
Proof.
  induction fuel as [|fuel IH]; intros port w r w' Hrun; [discriminate|].
  apply start_server_step in Hrun. cbv zeta in Hrun.
  destruct Hrun as [[e [Hb [He [-> ->]]]]
                   |[[Hb Hrec]
                   |[[Hb [Hs [-> ->]]]
                   |[[Hb [Hs [-> ->]]]
                   |[[e [Hb [Hs [He [-> ->]]]]]
                   | [Hb [Hs Hrec]]]]]]].
  - exists 0%nat, [EvBind port (BindRaises e)]. simpl.
    repeat split; try reflexivity; try lia; try discriminate.
    intros Hne. contradiction (Hne e). reflexivity.
  - apply IH in Hrec.
    destruct Hrec as [n [added [Hlog [Hclock [Hprobed [Hret [Hsock [Hann Hlast]]]]]]]].
    simpl in Hlog, Hclock.
    exists (S n), ([EvBind port (BindRaises EADDRINUSE);
                    EvPrint (retry_line port)] ++ added)%list.
    replace (port + Z.of_nat (S n)) with (port + 1 + Z.of_nat n) by lia.
    repeat split.
    + rewrite Hlog, <- app_assoc. reflexivity.
    + lia.
    + rewrite probed_ports_app, Hprobed. reflexivity.
    + exact Hret.
    + rewrite socket_state_app. exact Hsock.
    + rewrite announcements_app, served_ports_app, map_app, Hann. reflexivity.
    + exact Hlast.
  - exists 0%nat. eexists. split; [reflexivity|]. simpl.
    rewrite Z.add_0_r, Z.eqb_refl.
    repeat split; try reflexivity; try lia; try discriminate.
    intros _. exists []. reflexivity.
  - exists 0%nat. eexists. split; [reflexivity|]. simpl.
    rewrite Z.add_0_r, !Z.eqb_refl.
    repeat split; try reflexivity; try lia.
    + intros v Hv. inversion Hv. reflexivity.
    + intros _. exists []. reflexivity.
  - exists 0%nat. eexists. split; [reflexivity|]. simpl.
    rewrite !Z.eqb_refl.
    repeat split; try reflexivity; try lia; try discriminate.
    intros Hne. contradiction (Hne e). reflexivity.
  - apply IH in Hrec.
    destruct Hrec as [n [added [Hlog [Hclock [Hprobed [Hret [Hsock [Hann Hlast]]]]]]]].
    simpl in Hlog, Hclock.
    exists (S n), ([EvBind port Bound; EvPrint (running_line port);
                    EvPrint "Press Ctrl+C to stop the server"; EvServe port;
                    EvClose port; EvPrint (retry_line port)] ++ added)%list.
    replace (port + Z.of_nat (S n)) with (port + 1 + Z.of_nat n) by lia.
    repeat split.
    + rewrite Hlog, <- !app_assoc. reflexivity.
    + lia.
    + rewrite probed_ports_app, Hprobed. reflexivity.
    + exact Hret.
    + rewrite socket_state_app. cbn [socket_state]. rewrite !Z.eqb_refl.
      exact Hsock.
    + rewrite announcements_app, served_ports_app, map_app, Hann. reflexivity.
    + intros Hne. destruct (Hlast Hne) as [earlier Hearlier].
      exists (port :: earlier). rewrite served_ports_app, Hearlier. reflexivity.
Qed.

End ServerSteps.

Lemma probe_events_silent l : Forall probe_event l -> printed l = [].
Proof.
  induction 1 as [|ev l Hev _ IH]; [reflexivity|].
  destruct ev; simpl in *; try contradiction; assumption.
Qed.

Section FinderSteps.

Variable E : env.

(** The log of a run of the Port Finder's loop, read through the
    observations. *)
Lemma find_loop_trace fuel : forall start port w r w',
  find_loop E fuel start port w = Some (r, w') ->
  exists n added,
    log w' = (log w ++ added)%list
    /\ clock w' = (clock w + S n)%nat
    /\ probed_ports added = ports_from port (S n)
    /\ (n = 0%nat \/ port + Z.of_nat n <= start + 100)
    /\ socket_state None added = Some None.
Proof.
  induction fuel as [|fuel IH]; intros start port w r w' Hrun; [discriminate|].
  destruct (bind_at E (clock w) port) as [|e] eqn:Hb.
  - rewrite (find_loop_bound E fuel start port w Hb) in Hrun.
    inversion Hrun; subst. exists 0%nat, [EvBind port Bound; EvClose port].
    unfold tcp_server, emit. cbn [log clock snd]. rewrite Hb, <- app_assoc.
    repeat split; try lia; auto.
    simpl. rewrite Z.eqb_refl. reflexivity.
  - destruct (retried e) eqn:He.
    + apply retried_spec in He. subst e.
      rewrite (find_loop_taken E fuel start port w Hb) in Hrun.
      unfold tcp_server in Hrun. cbn [snd] in Hrun. rewrite Hb in Hrun.
      destruct (port + 1 >? start + 100)%Z eqn:Hgt.
      * inversion Hrun; subst. exists 0%nat. eexists. cbn [log clock].
        repeat split; try lia; auto.
      * assert (Hle : port + 1 <= start + 100).
        { destruct (Z.gtb_spec (port + 1) (start + 100));
            [discriminate|assumption]. }
        apply IH in Hrun.
        destruct Hrun as [n [added [Hlog [Hclock [Hprobed [Hwin Hsock]]]]]].
        cbn [log clock] in Hlog, Hclock.
        exists (S n), ([EvBind port (BindRaises EADDRINUSE)] ++ added)%list.
        repeat split.
        -- rewrite Hlog, <- app_assoc. reflexivity.
        -- lia.
        -- rewrite probed_ports_app, Hprobed. reflexivity.
        -- right. destruct Hwin as [-> | Hwin]; lia.
        -- rewrite socket_state_app. exact Hsock.
    + rewrite (find_loop_fatal E fuel start port w e Hb He) in Hrun.
      inversion Hrun; subst. exists 0%nat, [EvBind port (BindRaises e)].
      unfold tcp_server. cbn [log clock snd]. rewrite Hb.
      repeat split; try lia; auto.
Qed.

End FinderSteps.

(** X3.  The Port Finder probes its candidates in order, each exactly once
    and none skipped: whatever the outcome, the ports it constructed a
    server on are [s], [s + 1], ..., [s + n] for some [n <= 100], one
    construction each. *)
Theorem find_available_port_probes_in_order
    (E : env) (fuel : nat) (s : Z) (w w' : world) (r : result Z) :
  find_available_port E fuel s w = Some (r, w') ->
  exists n added,
    (n <= 100)%nat
    /\ log w' = (log w ++ added)%list
    /\ probed_ports added = ports_from s (S n)
    /\ clock w' = (clock w + S n)%nat.
Proof.
  intros Hrun. apply find_loop_trace in Hrun.
  destruct Hrun as [n [added [Hlog [Hclock [Hprobed [Hwin _]]]]]].
  exists n, added. repeat split; try assumption.
  destruct Hwin as [-> | Hwin]; lia.
Qed.

Lemma find_available_port_probes_in_order_witness :
  exists n added,
    (n <= 100)%nat
    /\ log (failed_probes E_all_taken 101 8000 init_world) = ([] ++ added)%list
    /\ probed_ports added = ports_from 8000 (S n).
Proof.
  destruct (find_available_port_probes_in_order E_all_taken 101 8000 init_world
              (failed_probes E_all_taken 101 8000 init_world)
              (Raised (Exception "Could not find available port")))
    as [n [added [Hn [Hlog [Hprobed _]]]]].
  - vm_compute. reflexivity.
  - exists n, added. split; [exact Hn|]. split; [exact Hlog|exact Hprobed].
Defined.

(** X4.  The Port Finder releases what it binds and is silent: along its
    log no server is constructed while another is open, the server it
    found is closed before it returns, no socket is left open whatever the
    outcome, and nothing is printed. *)
Theorem find_available_port_releases_socket
    (E : env) (fuel : nat) (s : Z) (w w' : world) (r : result Z) :
  find_available_port E fuel s w = Some (r, w') ->
  exists added,
    log w' = (log w ++ added)%list
    /\ socket_state None added = Some None
    /\ printed added = [].
Proof.
  intros Hrun. unfold find_available_port in Hrun.
  destruct (find_loop_trace E fuel s s w r w' Hrun)
    as [n [added [Hlog [_ [_ [_ Hsock]]]]]].
  destruct (find_loop_events E fuel s s w r w' Hrun)
    as [_ [added' [Hlog' Hall]]].
  rewrite Hlog in Hlog'. apply app_inv_head in Hlog'. subst added'.
  exists added. split; [exact Hlog|]. split; [exact Hsock|].
  apply probe_events_silent, Hall.
Qed.

Lemma find_available_port_releases_socket_witness :
  exists added,
    [EvBind 8000 (BindRaises EADDRINUSE); EvBind 8001 Bound; EvClose 8001]
    = ([] ++ added)%list
    /\ socket_state None added = Some None.
Proof.
  destruct (find_available_port_releases_socket E_8000_taken 2 8000 init_world
              (mkWorld 2 [EvBind 8000 (BindRaises EADDRINUSE);
                          EvBind 8001 Bound; EvClose 8001])
              (Returned 8001) eq_refl)
    as [added [Hlog [Hsock _]]].
  exists added. split; [exact Hlog|exact Hsock].
Defined.

(** ** Server: the ports it tries and the port it reports *)

(** Port 8000 is free, and the server's accept loop dies with errno 48;
    8001 is free and serves. *)
Lemma serve_crash_run :
  let E := mkEnv (fun _ _ => Bound)
                 (fun n => if Nat.eqb n 0 then ServeRaises EADDRINUSE
                           else ServeBlocks)
                 safari_ok browser_ok in
  start_server E 2 8000 init_world
  = Some (Serving,
          mkWorld 2 [EvBind 8000 Bound; EvPrint (running_line 8000);
                     EvPrint "Press Ctrl+C to stop the server"; EvServe 8000;
                     EvClose 8000; EvPrint (retry_line 8000);
                     EvBind 8001 Bound; EvPrint (running_line 8001);
                     EvPrint "Press Ctrl+C to stop the server"; EvServe 8001]).
Proof. reflexivity. Qed.

(** X5.  [start_server(port)] tries consecutive ports upwards, each exactly
    once: the ports it constructed a server on are [port], ..., [port + n],
    one construction each; when it is left serving, or returns, the port
    served last is [port + n], and a returned value is that port. *)
Theorem start_server_probes_in_order
    (E : env) (fuel : nat) (port : Z) (w w' : world) (r : result Z) :
  start_server E fuel port w = Some (r, w') ->
  exists n added,
    log w' = (log w ++ added)%list
    /\ probed_ports added = ports_from port (S n)
    /\ clock w' = (clock w + S n)%nat
    /\ (forall v, r = Returned v -> v = port + Z.of_nat n)
    /\ ((forall e, r <> Raised e) ->
        exists earlier, served_ports added = (earlier ++ [port + Z.of_nat n])%list).
Proof.
  intros Hrun. apply start_server_trace in Hrun.
  destruct Hrun as [n [added [Hlog [Hclock [Hprobed [Hret [_ [_ Hlast]]]]]]]].
  exists n, added. auto.
Qed.

Lemma start_server_probes_in_order_witness :
  exists n added,
    log (serving_world E_race 8001 (failed_binds E_race 1 8000 (mkWorld 1 [])))
    = ([] ++ added)%list
    /\ probed_ports added = ports_from 8000 (S n)
    /\ exists earlier, served_ports added = (earlier ++ [8000 + Z.of_nat n])%list.
Proof.
  destruct (start_server_probes_in_order E_race 2 8000 (mkWorld 1 [])
              (serving_world E_race 8001 (failed_binds E_race 1 8000 (mkWorld 1 [])))
              Serving eq_refl)
    as [n [added [Hlog [Hprobed [_ [_ Hlast]]]]]].
  exists n, added. split; [exact Hlog|]. split; [exact Hprobed|].
  apply Hlast. discriminate.
Defined.

(** X6.  [start_server] holds one listening socket at a time: no server is
    constructed while another is open, it serves only on the server it
    just bound, and a server whose [serve_forever] ended is closed before
    anything else happens.  When the call ends by raising or returning, no
    socket is left open; when it is left serving, the one open socket is
    on the last port tried. *)
Theorem start_server_one_socket
    (E : env) (fuel : nat) (port : Z) (w w' : world) (r : result Z) :
  start_server E fuel port w = Some (r, w') ->
  exists n added,
    log w' = (log w ++ added)%list
    /\ probed_ports added = ports_from port (S n)
    /\ socket_state None added
       = Some (match r with Serving => Some (port + Z.of_nat n) | _ => None end).
Proof.
  intros Hrun. apply start_server_trace in Hrun.
  destruct Hrun as [n [added [Hlog [_ [Hprobed [_ [Hsock _]]]]]]].
  exists n, added. auto.
Qed.

Lemma start_server_one_socket_witness :
  exists n added,
    log (snd (tcp_server E_errno_98 8000 init_world)) = ([] ++ added)%list
    /\ socket_state None added = Some None
    /\ probed_ports added = ports_from 8000 (S n).
Proof.
  destruct (start_server_one_socket E_errno_98 1 8000 init_world
              (snd (tcp_server E_errno_98 8000 init_world))
              (Raised (OSError (Some 98))) eq_refl)
    as [n [added [Hlog [Hprobed Hsock]]]].
  exists n, added. split; [exact Hlog|]. split; [exact Hsock|exact Hprobed].
Defined.

(** X7.  The console tells the truth about the port: the lines
    "Server running at http://localhost:<p>/" that [start_server] prints
    are, in order, exactly one per port it entered [serve_forever] on, each
    naming that port. *)
Theorem start_server_announces_served_ports
    (E : env) (fuel : nat) (port : Z) (w w' : world) (r : result Z) :
  start_server E fuel port w = Some (r, w') ->
  exists added,
    log w' = (log w ++ added)%list
    /\ announcements added = map running_line (served_ports added).
Proof.
  intros Hrun. apply start_server_trace in Hrun.
  destruct Hrun as [n [added [Hlog [_ [_ [_ [_ [Hann _]]]]]]]].
  exists added. auto.
Qed.

Lemma start_server_announces_served_ports_witness :
  exists added,
    log (serving_world E_race 8001 (failed_binds E_race 1 8000 (mkWorld 1 [])))
    = ([] ++ added)%list
    /\ announcements added = map running_line (served_ports added).
Proof.
  exact (start_server_announces_served_ports E_race 2 8000 (mkWorld 1 [])
           (serving_world E_race 8001 (failed_binds E_race 1 8000 (mkWorld 1 [])))
           Serving eq_refl).
Defined.

(** X8.  The [try] of [start_server] covers [serve_forever] as well as the
    bind.  An [OSError] with errno 48 that comes out of [serve_forever]
    after the server was bound on [p] makes [start_server] close that
    server, print the retry line and go on as [start_server(p + 1)]; any
    other exception out of [serve_forever] is raised to the caller once
    the server is closed. *)
Theorem serve_errors_go_through_the_bind_handler
    (E : env) (fuel : nat) (p : Z) (w : world) (e : exn) :
  bind_at E (clock w) p = Bound ->
  serve_at E (clock w) = ServeRaises e ->
  let closed :=
    mkWorld (S (clock w))
      (log w ++ [EvBind p Bound; EvPrint (running_line p);
                 EvPrint "Press Ctrl+C to stop the server";
                 EvServe p; EvClose p]) in
  (e = EADDRINUSE ->
   start_server E (S fuel) p w
   = start_server E fuel (p + 1) (print (retry_line p) closed))
  /\ (e <> EADDRINUSE ->
      start_server E (S fuel) p w = Some (Raised e, closed)).
Proof.
  intros Hb Hs closed. subst closed. split.
  - intros ->. cbn [start_server]. unfold tcp_server, print, emit.
    rewrite Hb, Hs. cbn [log clock snd retried]. rewrite <- !app_assoc.
    reflexivity.
  - intros He. apply not_retried in He.
    rewrite (start_server_serve_raises E fuel p w e Hb Hs He).
    unfold serving_world, tcp_server, print, emit. cbn [log clock snd].
    rewrite Hb, <- !app_assoc. reflexivity.
Qed.

Lemma serve_errors_go_through_the_bind_handler_witness :
  start_server E_interrupt 1 8000 init_world
  = Some (Raised KeyboardInterrupt,
          mkWorld 1 [EvBind 8000 Bound; EvPrint (running_line 8000);
                     EvPrint "Press Ctrl+C to stop the server";
                     EvServe 8000; EvClose 8000]).
Proof.
  apply (proj2 (serve_errors_go_through_the_bind_handler E_interrupt 0 8000
                  init_world KeyboardInterrupt eq_refl eq_refl)).
  discriminate.
Defined.

(** ** Launcher: when it fails, and what its URL identifies *)

(** X9.  The launcher thread fails only when both ways of opening the
    browser fail, and then with the exception of [webbrowser.open]: what
    [os.system] raised is swallowed by the bare [except].  In every other
    case it returns normally.  It never constructs a server, and its first
    two actions are the 1.5 s sleep and the Safari command. *)
Theorem open_in_safari_fails_only_if_both_fail
    (E : env) (port : Z) (w : world) (e : exn) :
  let url := localhost_url port in
  (fst (open_in_safari E port w) = Raised e
   <-> (exists e0, os_system E (safari_command url) = CallRaises e0)
       /\ webbrowser_open E url = CallRaises e)
  /\ (fst (open_in_safari E port w) = Returned tt
      \/ exists e', fst (open_in_safari E port w) = Raised e')
  /\ clock (snd (open_in_safari E port w)) = clock w
  /\ exists rest,
       log (snd (open_in_safari E port w))
       = (log w ++ EvSleep 1500 :: EvOsSystem (safari_command url) :: rest)%list
       /\ probed_ports rest = [].
Proof.
  intros url. unfold open_in_safari. fold url.
  destruct (os_system E (safari_command url)) as [status|e0] eqn:Hsys.
  - split; [|split; [|split]].
    + split; [discriminate|]. intros [[e0 He0] _]. discriminate.
    + left. reflexivity.
    + reflexivity.
    + eexists. split.
      * unfold print, emit. cbn [log snd]. rewrite <- !app_assoc. reflexivity.
      * reflexivity.
  - destruct (webbrowser_open E url) as [opened|e1] eqn:Hopen.
    + split; [|split; [|split]].
      * split; [discriminate|]. intros [_ He]. discriminate.
      * left. reflexivity.
      * reflexivity.
      * eexists. split.
        -- unfold print, emit. cbn [log snd]. rewrite <- !app_assoc. reflexivity.
        -- reflexivity.
    + split; [|split; [|split]].
      * split.
        -- intros He. inversion He; subst. split; [exists e0|]; reflexivity.
        -- intros [_ He]. inversion He; subst. reflexivity.
      * right. exists e1. reflexivity.
      * reflexivity.
      * eexists. split.
        -- unfold emit. cbn [log snd]. rewrite <- !app_assoc. reflexivity.
        -- reflexivity.
Qed.

Lemma str_inj (n m : Z) : str n = str m -> n = m.
Proof.
  unfold str. intros Heq.
  assert (Hnorm : forall z, Z.to_int z <> Decimal.Pos Decimal.Nil
                            /\ Z.to_int z <> Decimal.Neg Decimal.Nil).
  { intros [|q|q]; simpl; split; try discriminate;
      intros H; injection H; apply DecimalPos.Unsigned.to_uint_nonnil. }
  apply DecimalZ.to_int_inj.
  assert (Hsome : Some (Z.to_int n) = Some (Z.to_int m)).
  { rewrite <- (NilZero.isi (Z.to_int n)) by apply Hnorm.
    rewrite <- (NilZero.isi (Z.to_int m)) by apply Hnorm.
    rewrite Heq. reflexivity. }
  injection Hsome. auto.
Qed.

Lemma append_char_inj (c : ascii) (a b : string) :
  a ++ String c "" = b ++ String c "" -> a = b.
Proof.
  revert b. induction a as [|x a IH]; intros [|y b] Heq; simpl in Heq.
  - reflexivity.
  - injection Heq as _ Hrest. destruct b; discriminate.
  - injection Heq as _ Hrest. destruct a; discriminate.
  - injection Heq as -> Hrest. f_equal. apply IH. exact Hrest.
Qed.

(** X10.  The URL identifies the port: two ports with the same
    [http://localhost:<port>/] URL are the same port, and so are two
    ports with the same Safari command line. *)
Theorem localhost_url_identifies_port (p q : Z) :
  (localhost_url p = localhost_url q -> p = q)
  /\ (safari_command (localhost_url p) = safari_command (localhost_url q) -> p = q).
Proof.
  assert (Hurl : forall a b : string,
            "http://localhost:" ++ a ++ "/" = "http://localhost:" ++ b ++ "/" ->
            a = b).
  { intros a b Heq. cbn [append] in Heq. repeat (injection Heq as Heq).
    apply (append_char_inj "/"). exact Heq. }
  assert (Hcmd : forall u v : string, safari_command u = safari_command v -> u = v).
  { intros u v Heq. unfold safari_command, dquote in Heq. cbn [append] in Heq.
    repeat (injection Heq as Heq).
    apply (append_char_inj (ascii_of_nat 34)). exact Heq. }
  split.
  - intros Heq. apply str_inj, Hurl. exact Heq.
  - intros Heq. apply str_inj, Hurl, Hcmd. exact Heq.
Qed.

Lemma localhost_url_identifies_port_witness :
  localhost_url 8000 = localhost_url (7999 + 1) /\ 8000 = 7999 + 1.
Proof.
  split; [reflexivity|].
  apply (proj1 (localhost_url_identifies_port 8000 (7999 + 1))). reflexivity.
Defined.

(** ** The whole run *)

(** X11.  Over a whole run the main thread holds one listening socket at a
    time: the Port Finder's probe server is closed before the server is
    constructed, no construction happens while a server is open, and
    serving and closing always concern the open server.  At the end of the
    run a socket is open exactly when the process is left serving, and it
    is the one of the port served last. *)
Theorem main_one_socket (E : env) (fuel : nat) (r : run) :
  main E fuel = Some r ->
  exists st,
    socket_state None (log (main_world r)) = Some st
    /\ (ending r = ServesForever ->
        exists p earlier,
          st = Some p
          /\ served_ports (log (main_world r)) = (earlier ++ [p])%list)
    /\ (ending r <> ServesForever -> st = None).
Proof.
  intros Hmain.
  destruct (main_cases E fuel r Hmain)
    as [[e [w1 [Hfind ->]]] | [p [w1 [res [w3 [Hfind [Hsrv [_ Hcases]]]]]]]];
    unfold find_available_port in Hfind;
    destruct (find_loop_trace E fuel _ _ _ _ _ Hfind)
      as [n1 [added1 [Hlog1 [_ [_ [_ Hsock1]]]]]];
    simpl in Hlog1.
  - exists None. simpl. rewrite Hlog1. split; [exact Hsock1|].
    split; [discriminate|reflexivity].
  - destruct (start_server_trace E fuel _ _ _ _ Hsrv)
      as [n [added [Hlog [_ [_ [_ [Hsock [_ Hlast]]]]]]]].
    simpl in Hlog.
    assert (Hw3 : socket_state None (log w3)
                  = Some (match res with
                          | Serving => Some (p + Z.of_nat n)
                          | _ => None
                          end)).
    { rewrite Hlog, Hlog1, !socket_state_app, Hsock1. simpl. exact Hsock. }
    destruct Hcases
      as [[-> [Hend Hw]] | [[e [-> [_ [Hend Hw]]]]
         | [[v [-> [Hend Hw]]] | [-> [Hend Hw]]]]];
      rewrite Hend, Hw.
    + exists None. split; [|split; [discriminate|reflexivity]].
      unfold print, emit. simpl. rewrite socket_state_app, Hw3. reflexivity.
    + exists None. split; [exact Hw3|]. split; [discriminate|reflexivity].
    + exists None. split; [exact Hw3|]. split; [discriminate|reflexivity].
    + exists (Some (p + Z.of_nat n)). split; [exact Hw3|]. split.
      * intros _. destruct Hlast as [earlier Hearlier]; [discriminate|].
        exists (p + Z.of_nat n), (served_ports (log w1 ++ [EvThreadStart p]) ++ earlier)%list.
        split; [reflexivity|].
        rewrite Hlog, served_ports_app, Hearlier, app_assoc. reflexivity.
      * intros Hne. contradiction Hne. reflexivity.
Qed.

Lemma main_one_socket_witness :
  exists r st,
    main E_race 3 = Some r
    /\ socket_state None (log (main_world r)) = Some st
    /\ exists p earlier,
         st = Some p
         /\ served_ports (log (main_world r)) = (earlier ++ [p])%list.
Proof.
  eexists.
  destruct (main_one_socket E_race 3 _ eq_refl) as [st [Hsock [Hserving _]]].
  exists st. split; [reflexivity|]. split; [exact Hsock|].
  apply Hserving. reflexivity.
Defined.

(** X12.  Without a race the browser is sent to the port that is served:
    in an environment where the outcome of binding a port does not change
    during the run, every run that starts the launcher starts it once,
    with the port [p] the server binds at its first attempt; the first
    "Server running at" line names [p], the first port served is [p], and
    the launcher's Safari command is for [http://localhost:p/]. *)
Theorem no_race_ports_agree
    (E : env) (fuel : nat) (r : run) (res : result unit) (lw : world) :
  stable E ->
  main E fuel = Some r ->
  launcher r = Some (res, lw) ->
  exists p later more rest,
    thread_starts (log (main_world r)) = [p]
    /\ served_ports (log (main_world r)) = p :: later
    /\ announcements (log (main_world r)) = running_line p :: more
    /\ browser_opens (log lw) = safari_command (localhost_url p) :: rest.
Proof.
  intros Hstable Hmain Hlaunch.
  destruct (main_cases E fuel r Hmain)
    as [[e [w1 [Hfind ->]]] | [p [w1 [res' [w3 [Hfind [Hsrv [Hl _]]]]]]]];
    [discriminate|].
  destruct (main_log E fuel r p w1 Hmain Hfind)
    as [Hprobes [tail [Hlog [Hall Hserve]]]].
  assert (Hb : bind_at E (clock w1) p = Bound).
  { unfold find_available_port in Hfind. apply find_loop_sound in Hfind.
    destruct Hfind as [k [_ [_ [_ [Hfree _]]]]].
    rewrite (Hstable (clock w1) (clock init_world + k)%nat). exact Hfree. }
  destruct (Hserve Hb) as [rest' Htail].
  destruct (probe_events_quiet _ Hprobes) as [Hnt Hns].
  assert (Hsilent := probe_events_silent _ Hprobes).
  rewrite Hl in Hlaunch. exists p.
  exists (served_ports rest'), (announcements rest'),
         (tl (browser_opens (log lw))).
  split; [|split; [|split]].
  - rewrite Hlog, thread_starts_app, Hnt. cbn [thread_starts app].
    rewrite (server_events_no_thread _ Hall). reflexivity.
  - rewrite Hlog, Htail, served_ports_app, Hns. reflexivity.
  - rewrite Hlog, Htail, announcements_app. unfold announcements at 1.
    rewrite Hsilent. reflexivity.
  - unfold open_in_safari in Hlaunch.
    destruct (os_system E (safari_command (localhost_url p)));
      [|destruct (webbrowser_open E (localhost_url p))];
      inversion Hlaunch; subst; reflexivity.
Qed.

Lemma no_race_ports_agree_witness :
  stable E_8000_taken
  /\ exists r p later,
       main E_8000_taken 3 = Some r
       /\ thread_starts (log (main_world r)) = [p]
       /\ served_ports (log (main_world r)) = p :: later.
Proof.
  assert (Hstable : stable E_8000_taken) by (intros n m p; reflexivity).
  split; [exact Hstable|]. eexists.
  destruct (no_race_ports_agree E_8000_taken 3 _ _ _ Hstable eq_refl eq_refl)
    as [p [later [more [rest [Hts [Hserved _]]]]]].
  exists p, later. split; [reflexivity|]. split; [exact Hts|exact Hserved].
Defined.

(** No line [start_server] prints begins with a newline. *)
Lemma start_server_lines (E : env) fuel : forall port w r w',
  start_server E fuel port w = Some (r, w') ->
  exists added,
    log w' = (log w ++ added)%list
    /\ Forall (fun line => String.prefix newline line = false) (printed added).
Proof.
  induction fuel as [|fuel IH]; intros port w r w' Hrun; [discriminate|].
  apply start_server_step in Hrun. cbv zeta in Hrun.
  destruct Hrun as [[e [_ [_ [_ ->]]]]
                   |[[_ Hrec]
                   |[[_ [_ [_ ->]]]
                   |[[_ [_ [_ ->]]]
                   |[[e [_ [_ [_ [_ ->]]]]]
                   | [_ [_ Hrec]]]]]]].
  - eexists. split; [reflexivity|]. constructor.
  - apply IH in Hrec. destruct Hrec as [added [Hlog Hall]]. cbn [log] in Hlog.
    eexists. split; [rewrite Hlog, <- app_assoc; reflexivity|].
    rewrite printed_app. apply Forall_app. split; [|exact Hall].
    repeat constructor.
  - eexists. split; [reflexivity|]. repeat constructor.
  - eexists. split; [reflexivity|]. repeat constructor.
  - eexists. split; [reflexivity|]. repeat constructor.
  - apply IH in Hrec. destruct Hrec as [added [Hlog Hall]]. cbn [log] in Hlog.
    eexists. split; [rewrite Hlog, <- !app_assoc; reflexivity|].
    rewrite !printed_app. repeat (apply Forall_app; split); try exact Hall;
      repeat constructor.
Qed.

(** X13.  The shutdown message tells how the run ended: the line
    "\nServer stopped." is among the lines the main thread printed exactly
    when the run ended through [sys.exit(0)], and it is then the last
    line printed. *)
Theorem shutdown_message_iff_clean_exit (E : env) (fuel : nat) (r : run) :
  main E fuel = Some r ->
  (In (newline ++ "Server stopped.") (printed (log (main_world r)))
   <-> ending r = SysExit 0)
  /\ (ending r = SysExit 0 ->
      exists before,
        printed (log (main_world r))
        = (before ++ [(newline ++ "Server stopped.")%string])%list).
Proof.
  intros Hmain.
  assert (Hquiet : forall l,
            Forall (fun line => String.prefix newline line = false) l ->
            ~ In (newline ++ "Server stopped.") l).
  { intros l Hall Hin. rewrite Forall_forall in Hall.
    apply Hall in Hin. discriminate Hin. }
  destruct (main_cases E fuel r Hmain)
    as [[e [w1 [Hfind ->]]] | [p [w1 [res [w3 [Hfind [Hsrv [_ Hcases]]]]]]]];
    unfold find_available_port in Hfind;
    destruct (find_loop_events E fuel _ _ _ _ _ Hfind)
      as [_ [added1 [Hlog1 Hall1]]];
    simpl in Hlog1; apply probe_events_silent in Hall1.
  - simpl. rewrite Hlog1, Hall1. split; [|discriminate].
    split; [intros []|discriminate].
  - destruct (start_server_lines E fuel _ _ _ _ Hsrv) as [added [Hlog Hall]].
    cbn [log emit] in Hlog.
    assert (Hw3 : printed (log w3) = printed added).
    { rewrite Hlog, !printed_app, Hlog1, Hall1. reflexivity. }
    destruct Hcases
      as [[-> [Hend Hw]] | [[e [-> [_ [Hend Hw]]]]
         | [[v [-> [Hend Hw]]] | [-> [Hend Hw]]]]];
      rewrite Hend, Hw.
    + unfold print, emit. cbn [log]. rewrite printed_app. split.
      * split; [reflexivity|]. intros _. apply in_or_app. right. left.
        reflexivity.
      * intros _. eexists. reflexivity.
    + rewrite Hw3. split; [|discriminate]. split; [|discriminate].
      intros Hin. contradiction (Hquiet _ Hall Hin).
    + rewrite Hw3. split; [|discriminate]. split; [|discriminate].
      intros Hin. contradiction (Hquiet _ Hall Hin).
    + rewrite Hw3. split; [|discriminate]. split; [|discriminate].
      intros Hin. contradiction (Hquiet _ Hall Hin).
Qed.

Lemma shutdown_message_iff_clean_exit_witness :
  exists r before,
    main E_interrupt 2 = Some r
    /\ ending r = SysExit 0
    /\ printed (log (main_world r))
       = (before ++ [(newline ++ "Server stopped.")%string])%list.
Proof.
  eexists.
  destruct (proj2 (shutdown_message_iff_clean_exit E_interrupt 2 _ eq_refl) eq_refl)
    as [before Hbefore].
  exists before. split; [reflexivity|]. split; [reflexivity|exact Hbefore].
Defined.

Lemma ports_from_last k : forall z,
  ports_from z (S k) = (ports_from z k ++ [z + Z.of_nat k])%list.
Proof.
  induction k as [|k IH]; intros z.
  - simpl. rewrite Z.add_0_r. reflexivity.
  - change (ports_from z (S (S k))) with (z :: ports_from (z + 1) (S k)).
    rewrite IH. simpl. do 3 f_equal. lia.
Qed.

Lemma failed_probes_log (E : env) k : forall port w,
  exists added,
    log (failed_probes E k port w) = (log w ++ added)%list
    /\ Forall probe_event added
    /\ probed_ports added = ports_from port k.
Proof.
  induction k as [|k IH]; intros port w.
  - exists []. rewrite app_nil_r. repeat split. constructor.
  - destruct (IH (port + 1) (snd (tcp_server E port w)))
      as [added [Hlog [Hall Hprobed]]].
    exists (EvBind port (bind_at E (clock w) port) :: added).
    cbn [failed_probes]. rewrite Hlog. cbn [tcp_server snd log].
    rewrite <- app_assoc. repeat split.
    + constructor; [exact I|exact Hall].
    + simpl. rewrite Hprobed. reflexivity.
Qed.

(** X14.  A run with the whole window taken: when each of the ports 8000,
    ..., 8100 is taken at its probe, the script ends with the uncaught
    [Exception("Could not find available port")] after probing exactly
    those 101 ports in order; it has printed nothing, started no launcher
    thread and never tried to start the server. *)
Theorem main_fails_when_window_taken (E : env) (fuel : nat) :
  (101 <= fuel)%nat ->
  (forall i, (i < 101)%nat ->
     bind_at E i (8000 + Z.of_nat i) = BindRaises EADDRINUSE) ->
  exists r,
    main E fuel = Some r
    /\ ending r = Uncaught (Exception "Could not find available port")
    /\ launcher r = None
    /\ probed_ports (log (main_world r)) = ports_from 8000 101
    /\ printed (log (main_world r)) = []
    /\ thread_starts (log (main_world r)) = []
    /\ served_ports (log (main_world r)) = [].
Proof.
  intros Hfuel Htaken.
  assert (Hfind : find_available_port E fuel 8000 init_world
                  = Some (Raised (Exception "Could not find available port"),
                          failed_probes E 101 8000 init_world)).
  { unfold find_available_port.
    replace fuel with (100 + S (fuel - 101))%nat by lia.
    rewrite find_loop_skip; [|intros i Hi; apply Htaken; lia|lia].
    rewrite find_loop_taken
      by (rewrite clock_failed_probes; apply Htaken; simpl; lia).
    replace (8000 + Z.of_nat 100 + 1 >? 8000 + 100)%Z with true by reflexivity.
    rewrite <- failed_probes_last. reflexivity. }
  destruct (failed_probes_log E 101 8000 init_world)
    as [added [Hlog [Hall Hprobed]]].
  change (log init_world ++ added)%list with added in Hlog.
  destruct (probe_events_quiet _ Hall) as [Hnt Hns].
  eexists. split; [unfold main; rewrite Hfind; reflexivity|].
  cbn [ending launcher main_world]. rewrite Hlog.
  repeat split; try assumption.
  apply probe_events_silent, Hall.
Qed.

Lemma main_fails_when_window_taken_witness :
  exists r,
    main E_all_taken 101 = Some r
    /\ ending r = Uncaught (Exception "Could not find available port")
    /\ launcher r = None.
Proof.
  destruct (main_fails_when_window_taken E_all_taken 101)
    as [r [Hmain [Hend [Hl _]]]].
  - lia.
  - intros i Hi. reflexivity.
  - exists r. split; [exact Hmain|]. split; [exact Hend|exact Hl].
Defined.

(** The lines the launcher prints, left to run: the Safari line, or the
    default-browser line, or nothing when both browser calls raised. *)
Lemma open_in_safari_lines (E : env) (p : Z) :
  let url := localhost_url p in
  let out := open_in_safari E p init_world in
  printed (log (snd out)) = ["Opening " ++ url ++ " in Safari..."]
  \/ printed (log (snd out)) = ["Opening " ++ url ++ " in default browser..."]
  \/ (printed (log (snd out)) = [] /\ exists e, fst out = Raised e).
Proof.
  intros url out. unfold out, open_in_safari. fold url.
  destruct (os_system E (safari_command url)) as [status|e0].
  - left. reflexivity.
  - destruct (webbrowser_open E url) as [opened|e1].
    + right. left. reflexivity.
    + right. right. split; [reflexivity|]. exists e1. reflexivity.
Qed.

(** X15.  A run without a race, end to end: when binding does not change
    during the run, the ports 8000, ..., 8000 + k - 1 are taken ([k <=
    100]), 8000 + k is free and [serve_forever] blocks, the script is left
    serving on 8000 + k.  The main thread prints exactly the announcement
    of that port and the Ctrl+C hint, and starts the launcher once with
    that port; the launcher is [open_in_safari(8000 + k)], and the only
    other output of the script is the launcher's: left to run, it prints
    one line, "Opening http://localhost:<8000 + k>/ in Safari..." or
    "... in default browser...", or none when both browser calls raised. *)
Theorem main_serves_first_free_port (E : env) (fuel k : nat) :
  (k <= 100)%nat ->
  stable E ->
  (forall i, (i < k)%nat ->
     bind_at E 0 (8000 + Z.of_nat i) = BindRaises EADDRINUSE) ->
  bind_at E 0 (8000 + Z.of_nat k) = Bound ->
  serve_at E (S k) = ServeBlocks ->
  let p := 8000 + Z.of_nat k in
  exists r,
    main E (k + S fuel) = Some r
    /\ ending r = ServesForever
    /\ served_ports (log (main_world r)) = [p]
    /\ printed (log (main_world r))
       = [running_line p; "Press Ctrl+C to stop the server"]
    /\ thread_starts (log (main_world r)) = [p]
    /\ probed_ports (log (main_world r)) = (ports_from 8000 (S k) ++ [p])%list
    /\ launcher r = Some (open_in_safari E p init_world)
    /\ exists res lw,
         launcher r = Some (res, lw)
         /\ (printed (log lw) = ["Opening " ++ localhost_url p ++ " in Safari..."]
             \/ printed (log lw)
                = ["Opening " ++ localhost_url p ++ " in default browser..."]
             \/ (printed (log lw) = [] /\ exists e, res = Raised e)).
Proof.
  intros Hk Hstable Htaken Hfree Hserve p.
  set (w0 := failed_probes E k 8000 init_world).
  set (w1 := emit (EvClose p) (snd (tcp_server E p w0))).
  assert (Hclock0 : clock w0 = k)
    by (unfold w0; rewrite clock_failed_probes; reflexivity).
  assert (Hfind : find_available_port E (k + S fuel) 8000 init_world
                  = Some (Returned p, w1)).
  { unfold find_available_port.
    rewrite find_loop_skip;
      [|intros i Hi; rewrite (Hstable _ 0%nat); apply Htaken; exact Hi|lia].
    apply find_loop_bound. fold w0. rewrite (Hstable _ 0%nat). exact Hfree. }
  assert (Hsrv : start_server E (k + S fuel) p (emit (EvThreadStart p) w1)
                 = Some (Serving, serving_world E p (emit (EvThreadStart p) w1))).
  { rewrite Nat.add_succ_r. apply start_server_serving.
    - rewrite (Hstable _ 0%nat). exact Hfree.
    - cbn [emit clock w1 tcp_server snd]. rewrite Hclock0. exact Hserve. }
  destruct (failed_probes_log E k 8000 init_world)
    as [added [Hlog [Hall Hprobed]]].
  fold w0 in Hlog. change (log init_world ++ added)%list with added in Hlog.
  destruct (probe_events_quiet _ Hall) as [Hnt Hns].
  assert (Hsilent := probe_events_silent _ Hall).
  eexists. split; [unfold main; rewrite Hfind, Hsrv; reflexivity|].
  cbn [ending launcher main_world].
  unfold serving_world, tcp_server, print, emit, w1, tcp_server, emit.
  cbn [log clock snd].
  assert (Hb : forall n, bind_at E n p = Bound)
    by (intros n; rewrite (Hstable n 0%nat); exact Hfree).
  rewrite Hlog, !Hb.
  split; [reflexivity|]. split; [|split; [|split; [|split; [|split]]]].
  - rewrite !served_ports_app, Hns. reflexivity.
  - rewrite !printed_app, Hsilent. reflexivity.
  - rewrite !thread_starts_app, Hnt. reflexivity.
  - rewrite !probed_ports_app, Hprobed, ports_from_last, <- !app_assoc.
    reflexivity.
  - reflexivity.
  - exists (fst (open_in_safari E p init_world)),
           (snd (open_in_safari E p init_world)).
    split; [destruct (open_in_safari E p init_world); reflexivity|].
    apply open_in_safari_lines.
Qed.

Lemma main_serves_first_free_port_witness :
  exists r,
    main E_8000_taken 2 = Some r
    /\ ending r = ServesForever
    /\ served_ports (log (main_world r)) = [8001]
    /\ printed (log (main_world r))
       = [running_line 8001; "Press Ctrl+C to stop the server"]
    /\ exists res lw,
         launcher r = Some (res, lw)
         /\ printed (log lw) = ["Opening http://localhost:8001/ in Safari..."].
Proof.
  destruct (main_serves_first_free_port E_8000_taken 0 1)
    as [r [Hmain [Hend [Hserved [Hprinted [_ [_ [Hl _]]]]]]]].
  - lia.
  - intros n m q. reflexivity.
  - intros i Hi. assert (i = 0)%nat as -> by lia. reflexivity.
  - reflexivity.
  - reflexivity.
  - exists r. split; [exact Hmain|]. split; [exact Hend|].
    split; [exact Hserved|]. split; [exact Hprinted|].
    exists (fst (open_in_safari E_8000_taken (8000 + Z.of_nat 1) init_world)),
           (snd (open_in_safari E_8000_taken (8000 + Z.of_nat 1) init_world)).
    split; [exact Hl|reflexivity].
Defined.

(** X16.  The [try] of the main program does not cover the port search: an
    exception of a probe other than errno 48, a Ctrl+C during the search
    included, ends the run uncaught with that exception, after [k] taken
    ports at whichever candidate it happens; nothing is printed (no
    shutdown message), no launcher is started and the server is never
    tried. *)
Theorem main_does_not_catch_search_errors
    (E : env) (fuel k : nat) (e : exn) :
  (k <= 100)%nat ->
  (forall i, (i < k)%nat ->
     bind_at E i (8000 + Z.of_nat i) = BindRaises EADDRINUSE) ->
  bind_at E k (8000 + Z.of_nat k) = BindRaises e ->
  e <> EADDRINUSE ->
  exists r,
    main E (k + S fuel) = Some r
    /\ ending r = Uncaught e
    /\ launcher r = None
    /\ probed_ports (log (main_world r)) = ports_from 8000 (S k)
    /\ printed (log (main_world r)) = []
    /\ thread_starts (log (main_world r)) = [].
Proof.
  intros Hk Htaken Hfail Hother. apply not_retried in Hother.
  set (w0 := failed_probes E k 8000 init_world).
  assert (Hfind : find_available_port E (k + S fuel) 8000 init_world
                  = Some (Raised e, snd (tcp_server E (8000 + Z.of_nat k) w0))).
  { unfold find_available_port.
    rewrite find_loop_skip; [|exact Htaken|lia].
    apply find_loop_fatal; [|exact Hother].
    fold w0. unfold w0. rewrite clock_failed_probes. exact Hfail. }
  destruct (failed_probes_log E k 8000 init_world)
    as [added [Hlog [Hall Hprobed]]].
  fold w0 in Hlog. change (log init_world ++ added)%list with added in Hlog.
  destruct (probe_events_quiet _ Hall) as [Hnt _].
  assert (Hsilent := probe_events_silent _ Hall).
  eexists. split; [unfold main; rewrite Hfind; reflexivity|].
  cbn [ending launcher main_world tcp_server snd log]. rewrite Hlog.
  repeat split.
  - rewrite probed_ports_app, Hprobed, ports_from_last. reflexivity.
  - rewrite printed_app, Hsilent. reflexivity.
  - rewrite thread_starts_app, Hnt. reflexivity.
Qed.

Lemma main_does_not_catch_search_errors_witness :
  exists r,
    main (mkEnv (fun _ _ => BindRaises KeyboardInterrupt)
                quiet_serve safari_ok browser_ok) 1 = Some r
    /\ ending r = Uncaught KeyboardInterrupt
    /\ launcher r = None.
Proof.
  destruct (main_does_not_catch_search_errors
              (mkEnv (fun _ _ => BindRaises KeyboardInterrupt)
                     quiet_serve safari_ok browser_ok) 0 0 KeyboardInterrupt)
    as [r [Hmain [Hend [Hl _]]]].
  - lia.
  - intros i Hi. lia.
  - reflexivity.
  - discriminate.
  - exists r. split; [exact Hmain|]. split; [exact Hend|exact Hl].
Defined.
